(** * parlai/utils/testing.py : the retry decorator and the timeout guard

    A shallow embedding of the two pieces of [parlai.utils.testing] that have
    control flow of their own:

    - class [retry] (lines 125-163): a decorator that re-runs a flaky test;
    - the context manager [timeout] (lines 255-279): a SIGALRM based deadline.

    Python exceptions are modelled by their class, with the method resolution
    order of the builtin hierarchy; the test function is a state transformer
    over an arbitrary heap; the [signal] module is modelled by the disposition
    of SIGALRM and the pending alarm of the process. *)

From Stdlib Require Import ZArith List Bool Lia String.
Import ListNotations.
Local Open Scope Z_scope.

(** ** Python exception classes *)

Module Py.

(** The builtin exception classes the two components can meet, and
    user-defined classes deriving from [Exception]. *)
Inductive exc : Type :=
| BaseException
| Exception
| AssertionError
| OSError
| TimeoutError
| ValueError
| RuntimeError
| KeyboardInterrupt
| UserError (id : nat).

Definition exc_eqb (a b : exc) : bool :=
  match a, b with
  | BaseException, BaseException => true
  | Exception, Exception => true
  | AssertionError, AssertionError => true
  | OSError, OSError => true
  | TimeoutError, TimeoutError => true
  | ValueError, ValueError => true
  | RuntimeError, RuntimeError => true
  | KeyboardInterrupt, KeyboardInterrupt => true
  | UserError i, UserError j => Nat.eqb i j
  | _, _ => false
  end.

(** [cls.__mro__]: the class and its bases, most specific first. *)
Definition mro (c : exc) : list exc :=
  match c with
  | BaseException => [BaseException]
  | Exception => [Exception; BaseException]
  | AssertionError => [AssertionError; Exception; BaseException]
  | OSError => [OSError; Exception; BaseException]
  | TimeoutError => [TimeoutError; OSError; Exception; BaseException]
  | ValueError => [ValueError; Exception; BaseException]
  | RuntimeError => [RuntimeError; Exception; BaseException]
  | KeyboardInterrupt => [KeyboardInterrupt; BaseException]
  | UserError i => [UserError i; Exception; BaseException]
  end.

(** [issubclass(c, d)]. *)
Definition issubclass (c d : exc) : bool := existsb (exc_eqb d) (mro c).

(** An [except d:] clause handles a raised exception of class [c] exactly
    when [c] is a subclass of [d]. *)
Definition except_matches (d c : exc) : bool := issubclass c d.

(** The result of running a callable: it returns a value or raises. *)
Inductive result (V : Type) : Type :=
| Returned (v : V)
| Raised (e : exc).
Arguments Returned {V} v.
Arguments Raised {V} e.

(** [range(n)] for a Python int [n]: empty when [n <= 0]. *)
Definition range (n : Z) : list Z := map Z.of_nat (seq 0 (Z.to_nat n)).

End Py.

(** ** class retry *)

Module Retry.
Import Py.

Section Decorator.

(** The test instance, the remaining arguments ([*args], [**kwargs]), the
    values a test returns, and the heap the test reads and writes (the
    test object's attributes, counters of enclosing scopes, random state). *)
Variables (Self Args Val Heap : Type).

(** [testself.failureException], the class [unittest] raises on a failed
    assertion. *)
Variable failureException : Self -> exc.

(** The decorated function [testfn(testself, *args, **kwargs)]. *)
Definition test_function : Type := Self -> Args -> Heap -> result Val * Heap.

(** What the interpreter state holds while the wrapper runs: the heap, the
    record of every call of [testfn] made so far (receiver, arguments and
    result), and the lines sent to [logging.debug]. *)
Record machine : Type := Machine {
  heap : Heap;
  calls : list (Self * Args * result Val);
  debug_log : list string
}.

(** [__init__(self, ntries=3, log_retry=False)]. *)
Record retry : Type := Build_retry {
  ntries : Z;
  log_retry : bool
}.

Definition default_retry : retry := Build_retry 3 false.

(** One evaluation of [testfn(testself, *args, **kwargs)]. *)
Definition call (testfn : test_function) (testself : Self) (args : Args)
    (m : machine) : result Val * machine :=
  let (r, h) := testfn testself args (heap m) in
  (r, Machine h (calls m ++ [(testself, args, r)]) (debug_log m)).

(** Modelled from the spec: [debug] of [parlai.utils.logging], a module
    that is not part of this file; its one effect is a diagnostic line per
    retry.  The call is [logging.debug("Retrying {}".format(testfn))]. *)
Definition logging_debug (name : string) (m : machine) : machine :=
  Machine (heap m) (calls m) (debug_log m ++ [("Retrying " ++ name)%string]).

(** The body of [_wrapper]: the [for _ in range(self.ntries - 1)] loop over
    the elements still to visit, followed by the last call. *)
Fixpoint for_loop (self : retry) (name : string) (testfn : test_function)
    (testself : Self) (args : Args) (todo : list Z) (m : machine)
    : result Val * machine :=
  match todo with
  | [] =>
      (* last time, actually throw any errors there may be *)
      call testfn testself args m
  | _ :: rest =>
      match call testfn testself args m with
      | (Returned v, m1) => (Returned v, m1)
      | (Raised e, m1) =>
          if except_matches (failureException testself) e then
            let m2 := if log_retry self then logging_debug name m1 else m1 in
            for_loop self name testfn testself args rest m2
          else (Raised e, m1)
      end
  end.

(** [retry.__call__(self, testfn)] returns [_wrapper]; [name] is what
    [format] prints for [testfn]. *)
Definition _wrapper (self : retry) (name : string) (testfn : test_function)
    (testself : Self) (args : Args) (m : machine) : result Val * machine :=
  for_loop self name testfn testself args (range (ntries self - 1)) m.

(** The number of times [testfn] was invoked between two machine states. *)
Definition invocations (m0 m1 : machine) : nat :=
  (List.length (calls m1) - List.length (calls m0))%nat.

(** The heap after [i] successive calls of [testfn] with the same arguments,
    and the result of the call made then. *)
Fixpoint heap_after (testfn : test_function) (testself : Self) (args : Args)
    (h : Heap) (i : nat) : Heap :=
  match i with
  | O => h
  | S j => heap_after testfn testself args (snd (testfn testself args h)) j
  end.

Definition outcome_at (testfn : test_function) (testself : Self) (args : Args)
    (h : Heap) (i : nat) : result Val :=
  fst (testfn testself args (heap_after testfn testself args h i)).

(** The record of [n] successive calls of [testfn] with the same receiver
    and arguments, starting from heap [h]. *)
Fixpoint history (testfn : test_function) (testself : Self) (args : Args)
    (h : Heap) (n : nat) : list (Self * Args * result Val) :=
  match n with
  | O => []
  | S k =>
      let (r, h1) := testfn testself args h in
      (testself, args, r) :: history testfn testself args h1 k
  end.

(** The [i]-th call fails with an exception the [except] clause handles. *)
Definition retryable_at (testfn : test_function) (testself : Self)
    (args : Args) (h : Heap) (i : nat) : Prop :=
  exists e, outcome_at testfn testself args h i = Raised e /\
            except_matches (failureException testself) e = true.

(** A result the [except testself.failureException] clause does not handle:
    a returned value, or an exception of another class. *)
Definition leaves_loop (testself : Self) (r : result Val) : Prop :=
  match r with
  | Returned _ => True
  | Raised e => except_matches (failureException testself) e = false
  end.

End Decorator.

Arguments heap {Self Args Val Heap} _.
Arguments calls {Self Args Val Heap} _.
Arguments debug_log {Self Args Val Heap} _.
Arguments Machine {Self Args Val Heap} _ _ _.
Arguments call {Self Args Val Heap} testfn testself args m.
Arguments logging_debug {Self Args Val Heap} name m.
Arguments for_loop {Self Args Val Heap} failureException self name testfn
  testself args todo m.
Arguments _wrapper {Self Args Val Heap} failureException self name testfn
  testself args m.
Arguments invocations {Self Args Val Heap} m0 m1.
Arguments heap_after {Self Args Val Heap} testfn testself args h i.
Arguments outcome_at {Self Args Val Heap} testfn testself args h i.
Arguments history {Self Args Val Heap} testfn testself args h n.
Arguments retryable_at {Self Args Val Heap} failureException testfn testself
  args h i.
Arguments leaves_loop {Self Val} failureException testself r.

(** The class attribute [unittest.TestCase.failureException]. *)
Definition TestCase_failureException : exc := AssertionError.

(** Two test functions over a counter: one fails its assertion on its first
    [k] calls and returns ["ok"] afterwards, one always raises [e]. *)
Definition flaky (k : nat) : test_function unit unit string nat :=
  fun _ _ counter =>
    if (counter <? k)%nat then (Raised AssertionError, S counter)
    else (Returned "ok"%string, S counter).

Definition always_raises (e : exc) : test_function unit unit string nat :=
  fun _ _ counter => (Raised e, S counter).

Definition fresh : machine unit unit string nat := Machine 0%nat [] [].

(** [retry(...)(testfn)], the decorated test, is a test function again,
    over the machine it leaves its record in. *)
Definition decorated {Self Args Val Heap : Type}
    (failureException : Self -> exc) (self : retry) (name : string)
    (testfn : test_function Self Args Val Heap)
    : test_function Self Args Val (machine Self Args Val Heap) :=
  fun testself args m =>
    _wrapper failureException self name testfn testself args m.

End Retry.

(** ** The wrapper as it is called *)

Module RetryCall.
Import Py Retry.

(** An exception raised by the wrapper's own code rather than by the test:
    the call [_wrapper()] binds nothing to the parameter [testself]
    ([TypeError]); the expression [testself.failureException] of the
    [except] clause finds no such attribute ([AttributeError]). *)
Inductive wrapper_error : Type :=
| TypeError_missing_testself
| AttributeError_failureException.

(** What the caller of the wrapper observes: the result of a call of the
    test, or an exception of the wrapper's own. *)
Inductive observed (Val : Type) : Type :=
| FromTest (r : result Val)
| FromWrapper (w : wrapper_error).
Arguments FromTest {Val} r.
Arguments FromWrapper {Val} w.

Section Call.

Variables (Self Args Val Heap : Type).

(** [getattr(testself, 'failureException')]: [None] when the object has no
    such attribute. *)
Variable failureException : Self -> option exc.

(** The body of [_wrapper]; the expression [testself.failureException] is
    evaluated when a call of the test has raised, and only then. *)
Fixpoint for_loop (self : retry) (name : string)
    (testfn : test_function Self Args Val Heap)
    (testself : Self) (args : Args) (todo : list Z)
    (m : machine Self Args Val Heap)
    : observed Val * machine Self Args Val Heap :=
  match todo with
  | [] =>
      (* last time, actually throw any errors there may be *)
      let (r, m1) := call testfn testself args m in (FromTest r, m1)
  | _ :: rest =>
      match call testfn testself args m with
      | (Returned v, m1) => (FromTest (Returned v), m1)
      | (Raised e, m1) =>
          match failureException testself with
          | None => (FromWrapper AttributeError_failureException, m1)
          | Some cls =>
              if except_matches cls e then
                let m2 :=
                  if log_retry self then logging_debug name m1 else m1 in
                for_loop self name testfn testself args rest m2
              else (FromTest (Raised e), m1)
          end
      end
  end.

(** [_wrapper(testself, *args, **kwargs)], called with the positional
    arguments [testself, *args], or with none at all ([receiver = None]),
    which fails before the body is entered. *)
Definition _wrapper (self : retry) (name : string)
    (testfn : test_function Self Args Val Heap)
    (receiver : option Self) (args : Args)
    (m : machine Self Args Val Heap)
    : observed Val * machine Self Args Val Heap :=
  match receiver with
  | None => (FromWrapper TypeError_missing_testself, m)
  | Some testself =>
      for_loop self name testfn testself args (range (ntries self - 1)) m
  end.

End Call.

Arguments for_loop {Self Args Val Heap} failureException self name testfn
  testself args todo m.
Arguments _wrapper {Self Args Val Heap} failureException self name testfn
  receiver args m.

End RetryCall.

(** ** The [signal] module, for SIGALRM *)

Module Signal.
Import Py.

(** What [signal.signal(signal.SIGALRM, h)] accepts for [h]: the two special
    dispositions, or a Python callable, which either returns or raises. *)
Inductive handler : Type :=
| SIG_DFL
| SIG_IGN
| Callable (raises : option exc).

(** The part of the process the guard touches: the disposition of SIGALRM,
    the pending alarm (seconds until SIGALRM is sent, [None] when no alarm
    is scheduled) and the seconds elapsed since the process started. *)
Record process : Type := Process {
  sigalrm : handler;
  alarm : option nat;
  clock : nat
}.

(** A freshly started interpreter: default disposition, no alarm. *)
Definition boot : process := Process SIG_DFL None 0.

(** [signal.signal(signal.SIGALRM, h)]; the previous handler it returns is
    dropped by every caller in this file. *)
Definition signal_signal (h : handler) (p : process) : process :=
  Process h (alarm p) (clock p).

(** [signal.alarm(time)] for [time >= 0], as the standard library documents
    it: a non-zero [time] replaces any scheduled alarm by one [time] seconds
    ahead; with [time] zero no alarm is scheduled and any scheduled alarm
    is cancelled. *)
Definition signal_alarm (time : Z) (p : process) : process :=
  Process (sigalrm p)
          (if time =? 0 then None else Some (Z.to_nat time))
          (clock p).

(** How a piece of code ends: it falls off its end, it raises, or the
    process is terminated by the default action of SIGALRM. *)
Inductive outcome : Type :=
| Completed
| Failed (e : exc)
| Terminated.

(** [n] seconds of blocking work ([time.sleep(n)], a training step).  When
    the alarm expires within these [n] seconds SIGALRM is sent at that
    moment and the disposition decides: the default action terminates the
    process, an ignored signal changes nothing, a Python handler runs and,
    when it raises, the exception surfaces in the interrupted code.  An
    alarm due at the very end of the work was set before the work started,
    so it expires first. *)
Definition sleep (n : nat) (p : process) : outcome * process :=
  match alarm p with
  | None => (Completed, Process (sigalrm p) None (clock p + n))
  | Some r =>
      if (r <=? n)%nat then
        match sigalrm p with
        | SIG_DFL => (Terminated, Process SIG_DFL None (clock p + r))
        | SIG_IGN => (Completed, Process SIG_IGN None (clock p + n))
        | Callable None =>
            (Completed, Process (Callable None) None (clock p + n))
        | Callable (Some e) =>
            (Failed e, Process (Callable (Some e)) None (clock p + r))
        end
      else (Completed, Process (sigalrm p) (Some (r - n)%nat) (clock p + n))
  end.

(** The code a [with] statement can guard: blocks that do not themselves
    call into [signal]. *)
Inductive block : Type :=
| Pass
| Sleep (n : nat)
| Raise (e : exc)
| Seq (first second : block)
| Try (body : block) (cls : exc) (except : block).

Fixpoint exec (b : block) (p : process) : outcome * process :=
  match b with
  | Pass => (Completed, p)
  | Sleep n => sleep n p
  | Raise e => (Failed e, p)
  | Seq b1 b2 =>
      match exec b1 p with
      | (Completed, p1) => exec b2 p1
      | stop => stop
      end
  | Try body cls except =>
      match exec body p with
      | (Failed e, p1) =>
          if except_matches cls e then exec except p1 else (Failed e, p1)
      | other => other
      end
  end.

(** A block that has no [try] statement of its own. *)
Fixpoint catches_nothing (b : block) : bool :=
  match b with
  | Pass | Sleep _ | Raise _ => true
  | Seq b1 b2 => catches_nothing b1 && catches_nothing b2
  | Try _ _ _ => false
  end.

(** The block run on its own, with no alarm scheduled: how it ends and how
    many seconds it takes. *)
Definition unguarded (b : block) : outcome * nat :=
  let (o, p) := exec b boot in (o, clock p).

End Signal.

(** ** The context manager timeout *)

Module Timeout.
Import Py Signal.

(** The nested function [_handler(signum, frame)]: [raise TimeoutError]. *)
Definition _handler : handler := Callable (Some TimeoutError).

(** The generator up to its [yield], run by [__enter__]. *)
Definition timeout_enter (time : Z) (p : process) : outcome * process :=
  if time <? 0 then
    (* assert time >= 0, 'Time specified in timeout must be nonnegative.' *)
    (Failed AssertionError, p)
  else
    let p1 := signal_signal _handler p in
    let p2 := signal_alarm time p1 in
    (Completed, p2).

(** The generator from its [yield] on, run by [__exit__] with the way the
    guarded block ended: the [try] around the [yield], its
    [except TimeoutError as e: raise e] clause and its [finally] clause. *)
Definition timeout_exit (thrown : outcome) (p : process) : outcome * process :=
  match thrown with
  | Terminated => (Terminated, p)
  | _ =>
      let propagated :=
        match thrown with
        | Failed e =>
            if except_matches TimeoutError e then Failed e (* raise e *)
            else Failed e
        | other => other
        end in
      (* finally *)
      (propagated, signal_signal SIG_IGN p)
  end.

(** [with timeout(time): body]. *)
Definition timeout (time : Z) (body : block) (p : process)
    : outcome * process :=
  match timeout_enter time p with
  | (Completed, p1) =>
      let (thrown, p2) := exec body p1 in
      timeout_exit thrown p2
  | failed => failed
  end.

(** The default of the parameter: [time: int = 30]. *)
Definition default_time : Z := 30.

End Timeout.

(** ** Code that uses the guard: nesting, and handlers installed later *)

Module Guards.
Import Py Signal Timeout.

(** [with timeout(time): body] for any body, given by what it does to the
    process; the generator is the one of [timeout]. *)
Definition timeout_around (time : Z) (body : process -> outcome * process)
    (p : process) : outcome * process :=
  match timeout_enter time p with
  | (Completed, p1) =>
      let (thrown, p2) := body p1 in
      timeout_exit thrown p2
  | failed => failed
  end.

(** Code in which guards can be nested and followed by other statements,
    [signal.signal(signal.SIGALRM, h)] among them. *)
Inductive code : Type :=
| Plain (b : block)
| Guarded (time : Z) (body : code)
| Then (first second : code)
| Install (h : handler).

Fixpoint run (c : code) (p : process) : outcome * process :=
  match c with
  | Plain b => exec b p
  | Guarded time body => timeout_around time (run body) p
  | Then c1 c2 =>
      match run c1 p with
      | (Completed, p1) => run c2 p1
      | stop => stop
      end
  | Install h => (Completed, signal_signal h p)
  end.

End Guards.

(** ** The context manager tempdir *)

Module TempDir.
Import Py.

(** A path by its components, and the file system by the files and
    directories that exist. *)
Definition path : Type := list string.
Definition filesystem : Type := list path.

Definition path_eqb (p q : path) : bool :=
  if list_eq_dec string_dec p q then true else false.

(** [d] is [p] or one of the directories above it. *)
Fixpoint is_prefix (d p : path) : bool :=
  match d, p with
  | [], _ => true
  | x :: d', y :: p' => if string_dec x y then is_prefix d' p' else false
  | _ :: _, [] => false
  end.

Definition exists_ (fs : filesystem) (p : path) : bool :=
  existsb (path_eqb p) fs.

(** A file system in which everything that exists lies in directories that
    exist. *)
Definition closed (fs : filesystem) : Prop :=
  forall d p, In p fs -> is_prefix d p = true -> In d fs.

(** [tempfile.mkdtemp()]: the candidate names are tried in turn and the
    first one that does not exist is created; [None] is the
    [FileExistsError] raised when every candidate exists. *)
Fixpoint mkdtemp (names : list path) (fs : filesystem)
    : option (path * filesystem) :=
  match names with
  | [] => None
  | d :: rest =>
      if exists_ fs d then mkdtemp rest fs else Some (d, d :: fs)
  end.

(** [shutil.rmtree(d)]: [d] and everything below it is removed; [None] is
    the [FileNotFoundError] raised when [d] does not exist. *)
Definition rmtree (d : path) (fs : filesystem) : option filesystem :=
  if exists_ fs d then Some (filter (fun p => negb (is_prefix d p)) fs)
  else None.

(** How [with tempdir() as d: body] ends. *)
Inductive ending : Type :=
| Done
| BodyRaised (e : exc)
| NoUsableName
| CleanupFailed.

(** [d = tempfile.mkdtemp(); yield d; shutil.rmtree(d)]: the [yield] is not
    inside a [try], so an exception thrown in by the block leaves the
    generator at once. *)
Definition tempdir (names : list path)
    (body : path -> filesystem -> result unit * filesystem)
    (fs : filesystem) : ending * filesystem :=
  match mkdtemp names fs with
  | None => (NoUsableName, fs)
  | Some (d, fs1) =>
      match body d fs1 with
      | (Returned _, fs2) =>
          match rmtree d fs2 with
          | Some fs3 => (Done, fs3)
          | None => (CleanupFailed, fs2)
          end
      | (Raised e, fs2) => (BodyRaised e, fs2)
      end
  end.

End TempDir.

(** ** The context manager capture_output *)

Module Capture.
Import Py.

(** Text streams are numbered; the interpreter holds the stream that is
    [sys.stdout], the one that is [sys.stderr], every piece of text written
    so far with the stream it went to, and the number of streams created. *)
Record io : Type := IO {
  sys_stdout : nat;
  sys_stderr : nat;
  written : list (nat * string);
  objects : nat
}.

(** [stream.write(text)]. *)
Definition write (stream : nat) (text : string) (w : io) : io :=
  IO (sys_stdout w) (sys_stderr w) (written w ++ [(stream, text)]) (objects w).

(** [sio.getvalue()]: all the text written to the stream, in order. *)
Definition getvalue (stream : nat) (w : io) : string :=
  String.concat ""
    (map snd (filter (fun entry => Nat.eqb (fst entry) stream) (written w))).

(** [io.StringIO()]. *)
Definition StringIO (w : io) : nat * io :=
  (objects w, IO (sys_stdout w) (sys_stderr w) (written w) (S (objects w))).

Definition set_stdout (stream : nat) (w : io) : io :=
  IO stream (sys_stderr w) (written w) (objects w).

Definition set_stderr (stream : nat) (w : io) : io :=
  IO (sys_stdout w) stream (written w) (objects w).

(** What a block does with the two streams: it writes to [sys.stdout], it
    writes to [sys.stderr], or it raises. *)
Inductive command : Type :=
| Out (text : string)
| Err (text : string)
| Fail (e : exc).

Fixpoint run (cs : list command) (w : io) : result unit * io :=
  match cs with
  | [] => (Returned tt, w)
  | Out text :: rest => run rest (write (sys_stdout w) text w)
  | Err text :: rest => run rest (write (sys_stderr w) text w)
  | Fail e :: _ => (Raised e, w)
  end.

(** The text a block writes before it ends, to either stream. *)
Fixpoint output (cs : list command) : string :=
  match cs with
  | [] => ""
  | Out text :: rest => text ++ output rest
  | Err text :: rest => text ++ output rest
  | Fail _ :: _ => ""
  end.

(** How a block ends: it returns, or it raises at its first [Fail]. *)
Fixpoint ending (cs : list command) : result unit :=
  match cs with
  | [] => Returned tt
  | Fail e :: _ => Raised e
  | _ :: rest => ending rest
  end.

(** [with capture_output() as output: body]:
    [sio = io.StringIO()], then
    [with contextlib.redirect_stdout(sio), contextlib.redirect_stderr(sio):
    yield sio].  Each redirection keeps the stream it replaces and puts it
    back when it is left, on every way out, the inner one first. *)
Definition capture_output (body : nat -> io -> result unit * io) (w : io)
    : nat * result unit * io :=
  let (sio, w0) := StringIO w in
  let old_stdout := sys_stdout w0 in
  let w1 := set_stdout sio w0 in
  let old_stderr := sys_stderr w1 in
  let w2 := set_stderr sio w1 in
  let (r, w3) := body sio w2 in
  let w4 := set_stderr old_stderr w3 in
  let w5 := set_stdout old_stdout w4 in
  (sio, r, w5).

(** Every piece of text written so far went to a stream that exists, and so
    do [sys.stdout] and [sys.stderr]. *)
Definition well_formed (w : io) : Prop :=
  Forall (fun entry => (fst entry < objects w)%nat) (written w) /\
  (sys_stdout w < objects w)%nat /\ (sys_stderr w < objects w)%nat.

(** An interpreter at start: stream 0 is the terminal's standard output,
    stream 1 its standard error. *)
Definition terminal : io := IO 0 1 [] 2.

End Capture.

(** ** is_new_task_filename *)

Module Tasks.

(** [needle in hay] for two [str]. *)
Fixpoint contains (needle hay : string) : bool :=
  if String.prefix needle hay then true
  else match hay with
       | EmptyString => false
       | String _ rest => contains needle rest
       end.

Definition is_new_task_filename (filename : string) : bool :=
  contains "parlai/tasks" filename
  && negb (contains "README" filename)
  && negb (contains "task_list.py" filename).

End Tasks.

(** ** The availability flags and the skip decorators *)

Module Skips.
Import Py.

(** What the module finds when it is imported: for [torch], whether the
    import succeeds and what [torch.cuda.device_count()] is; for the other
    packages, whether the import succeeds; and the environment variable
    [CIRCLECI]. *)
Record environment : Type := Environment {
  torch : option Z;
  torchvision : bool;
  gitpython : bool;
  subword_nmt : bool;
  maskrcnn_benchmark : bool;
  cv2 : bool;
  CIRCLECI : option string
}.

Definition TORCH_AVAILABLE (env : environment) : bool :=
  match torch env with Some _ => true | None => false end.

Definition GPU_AVAILABLE (env : environment) : bool :=
  match torch env with Some count => 0 <? count | None => false end.

Definition VISION_AVAILABLE (env : environment) : bool := torchvision env.

Definition GIT_AVAILABLE (env : environment) : bool := gitpython env.

Definition BPE_INSTALLED (env : environment) : bool := subword_nmt env.

Definition DETECTRON_AVAILABLE (env : environment) : bool :=
  if maskrcnn_benchmark env then cv2 env else false.

(** [bool(s)] for an optional [str]: [None] and the empty string are
    false. *)
Definition truthy (v : option string) : bool :=
  match v with
  | None => false
  | Some EmptyString => false
  | Some (String _ _) => true
  end.

(** [bool(os.environ.get('CIRCLECI'))]. *)
Definition is_this_circleci (env : environment) : bool :=
  truthy (CIRCLECI env).

Section Tests.

Variables (World Val : Type).

(** What running a test gives: the test ran, or it was skipped. *)
Inductive verdict : Type :=
| Ran (r : result Val)
| Skipped (reason : string).

Definition test : Type := World -> verdict * World.

(** [unittest.skip(reason)(testfn)]: the test raises [SkipTest(reason)]
    without running. *)
Definition skip (reason : string) (testfn : test) : test :=
  fun w => (Skipped reason, w).

(** [unittest.skipUnless(condition, reason)(testfn)]. *)
Definition skipUnless (condition : bool) (reason : string) (testfn : test)
    : test :=
  if condition then testfn else skip reason testfn.

(** [unittest.skipIf(condition, reason)(testfn)]. *)
Definition skipIf (condition : bool) (reason : string) (testfn : test)
    : test :=
  if condition then skip reason testfn else testfn.

Variable env : environment.

Definition skipUnlessTorch (testfn : test) : test :=
  skipUnless (TORCH_AVAILABLE env) "pytorch is not installed" testfn.

Definition skipIfGPU (testfn : test) : test :=
  skipIf (GPU_AVAILABLE env) "Test is CPU-only" testfn.

Definition skipUnlessGPU (testfn : test) : test :=
  skipUnless (GPU_AVAILABLE env) "Test requires a GPU" testfn.

Definition skipUnlessBPE (testfn : test) : test :=
  skipUnless (BPE_INSTALLED env) "Test requires subword NMT" testfn.

Definition skipIfCircleCI (testfn : test) : test :=
  skipIf (is_this_circleci env) "Test disabled in CircleCI" testfn.

Definition skipUnlessVision (testfn : test) : test :=
  skipUnless (VISION_AVAILABLE env) "torchvision not installed" testfn.

Definition skipUnlessDetectron (testfn : test) : test :=
  skipUnless (DETECTRON_AVAILABLE env)
    "maskrcnn_benchmark and/or opencv not installed" testfn.

(** The test itself was run: the verdict is not a skip. *)
Definition runs (t : test) (w : World) : bool :=
  match fst (t w) with Ran _ => true | Skipped _ => false end.

End Tests.

Arguments Ran {Val} r.
Arguments Skipped {Val} reason.
Arguments skip {World Val} reason testfn.
Arguments skipUnless {World Val} condition reason testfn.
Arguments skipIf {World Val} condition reason testfn.
Arguments skipUnlessTorch {World Val} env testfn.
Arguments skipIfGPU {World Val} env testfn.
Arguments skipUnlessGPU {World Val} env testfn.
Arguments skipUnlessBPE {World Val} env testfn.
Arguments skipIfCircleCI {World Val} env testfn.
Arguments skipUnlessVision {World Val} env testfn.
Arguments skipUnlessDetectron {World Val} env testfn.
Arguments runs {World Val} t w.

End Skips.

(** ** The git listings *)

Module Git.

Definition newline : Ascii.ascii := Ascii.ascii_of_nat 10.

(** [s.split('\n')]. *)
Fixpoint split (s : string) : list string :=
  match s with
  | EmptyString => [EmptyString]
  | String c rest =>
      if Ascii.eqb c newline then EmptyString :: split rest
      else match split rest with
           | piece :: pieces => String c piece :: pieces
           | [] => [String c EmptyString]
           end
  end.

(** The number of line feeds in a string. *)
Fixpoint newlines (s : string) : nat :=
  match s with
  | EmptyString => 0
  | String c rest =>
      if Ascii.eqb c newline then S (newlines rest) else newlines rest
  end.

Section Listings.

(** What [git_.ls_files(root)] prints; the fork point, which is what
    [git_.merge_base('origin/master', 'HEAD')] prints, stripped; what
    [git_.diff('--name-only', fork_point)] prints; and
    [PathManager.exists]. *)
Variable ls_files : option string -> string.
Variable fork_point : string.
Variable diff_name_only : string -> string.
Variable PathManager_exists : string -> bool.

Definition git_ls_files (root : option string) (skip_nonexisting : bool)
    : list string :=
  let filenames := split (ls_files root) in
  if skip_nonexisting then filter PathManager_exists filenames
  else filenames.

Definition git_changed_files (skip_nonexisting : bool) : list string :=
  let filenames := split (diff_name_only fork_point) in
  if skip_nonexisting then filter PathManager_exists filenames
  else filenames.

End Listings.

End Git.

(** * Properties of retry *)

Section RetryFacts.
Import Py Retry.

Variables (Self Args Val Heap : Type).
Variable failureException : Self -> exc.
Variable testfn : test_function Self Args Val Heap.
Variable testself : Self.
Variable args : Args.

Local Abbreviation outcome := (outcome_at testfn testself args).
Local Abbreviation after := (heap_after testfn testself args).
Local Abbreviation retryable :=
  (retryable_at failureException testfn testself args).
Local Abbreviation past := (history testfn testself args).
Local Abbreviation loop self name :=
  (for_loop failureException self name testfn testself args).
Local Abbreviation wrapper self name :=
  (_wrapper failureException self name testfn testself args).

Lemma range_length (n : Z) : List.length (range n) = Z.to_nat n.
Proof. unfold range. now rewrite length_map, length_seq. Qed.

Lemma call_eq (m : machine Self Args Val Heap) :
  call testfn testself args m =
    (outcome (heap m) 0,
     Machine (after (heap m) 1)
             (calls m ++ [(testself, args, outcome (heap m) 0)])
             (debug_log m)).
Proof.
  unfold call, outcome_at. simpl.
  now destruct (testfn testself args (heap m)).
Qed.

Lemma history_one (h : Heap) :
  history testfn testself args h 1 = [(testself, args, outcome h 0)].
Proof.
  unfold outcome_at. simpl. now destruct (testfn testself args h).
Qed.

Lemma history_succ (h : Heap) (n : nat) :
  history testfn testself args h (S n) =
    (testself, args, outcome h 0) :: history testfn testself args (after h 1) n.
Proof.
  unfold outcome_at. simpl. now destruct (testfn testself args h).
Qed.

Lemma history_length (n : nat) :
  forall h, List.length (history testfn testself args h n) = n.
Proof.
  induction n as [|n IH]; intro h; [reflexivity|].
  rewrite history_succ. simpl. now rewrite IH.
Qed.

Lemma outcome_succ (h : Heap) (i : nat) :
  outcome h (S i) = outcome (after h 1) i.
Proof. reflexivity. Qed.

Lemma after_succ (h : Heap) (i : nat) :
  after h (S i) = after (after h 1) i.
Proof. reflexivity. Qed.

(** What a run of the loop with [todo] elements left does: it makes [n]
    calls, [1 <= n <= length todo + 1], all with the receiver and arguments
    it was given; the first [n - 1] raised the failure exception; its result
    is that of the last call; and it stopped early only on a result the
    [except] clause does not handle. *)
Lemma for_loop_spec (self : retry) (name : string) (todo : list Z) :
  forall (m m' : machine Self Args Val Heap) (r : result Val),
    loop self name todo m = (r, m') ->
    exists n : nat,
      (n <= List.length todo)%nat /\
      (forall i, (i < n)%nat -> retryable (heap m) i) /\
      r = outcome (heap m) n /\
      heap m' = after (heap m) (S n) /\
      calls m' = calls m ++ past (heap m) (S n) /\
      ((n < List.length todo)%nat ->
       leaves_loop failureException testself r).
Proof.
  induction todo as [|x rest IH]; intros m m' r H; cbn [for_loop] in H.
  - rewrite call_eq in H. inversion H; subst; clear H.
    exists 0%nat. rewrite history_one. cbn [List.length].
    repeat split; lia.
  - rewrite call_eq in H.
    destruct (outcome (heap m) 0) as [v|e] eqn:E0.
    + inversion H; subst; clear H.
      exists 0%nat. rewrite history_one, E0. cbn [List.length].
      repeat split; lia.
    + destruct (except_matches (failureException testself) e) eqn:Em.
      * apply IH in H. destruct H as (n & Hn & Hre & Hr & Hh & Hc & Hl).
        set (m1 := Machine (after (heap m) 1)
                     (calls m ++ [(testself, args, Raised e)])
                     (debug_log m)) in *.
        assert (Hheap : heap (if log_retry self
                              then logging_debug name m1 else m1)
                        = after (heap m) 1)
          by (destruct (log_retry self); reflexivity).
        assert (Hcalls : calls (if log_retry self
                                then logging_debug name m1 else m1)
                         = calls m ++ [(testself, args, Raised e)])
          by (destruct (log_retry self); reflexivity).
        rewrite Hheap in Hre, Hr, Hh, Hc. rewrite Hcalls in Hc.
        exists (S n). cbn [List.length].
        split; [lia|]. split.
        { intros [|i] Hi.
          - exists e. now split.
          - destruct (Hre i ltac:(lia)) as (e' & He' & Hm').
            exists e'. now rewrite outcome_succ. }
        split; [now rewrite outcome_succ|].
        split; [now rewrite after_succ|].
        split.
        { rewrite Hc, (history_succ (heap m) (S n)), E0.
          now rewrite <- app_assoc. }
        intro Hlt. apply Hl. lia.
      * inversion H; subst; clear H.
        exists 0%nat. rewrite history_one, E0. cbn [List.length].
        repeat split; solve [lia | intros _; exact Em].
Qed.

Lemma history_receiver (n : nat) :
  forall h, Forall (fun c => fst c = (testself, args)) (past h n).
Proof.
  induction n as [|n IH]; intro h; [constructor|].
  rewrite history_succ. constructor; [reflexivity | apply IH].
Qed.

Lemma retryable_stays (h : Heap) (i : nat) :
  retryable h i -> ~ leaves_loop failureException testself (outcome h i).
Proof.
  intros (e & He & Hm) Hl. rewrite He in Hl. simpl in Hl. congruence.
Qed.

(** The wrapper as a whole: [S n] calls, where [n] is at most the number of
    elements of [range(self.ntries - 1)]. *)
Lemma wrapper_spec (self : retry) (name : string)
    (m : machine Self Args Val Heap) :
  exists n : nat,
    (n <= Z.to_nat (ntries self - 1))%nat /\
    (forall i, (i < n)%nat -> retryable (heap m) i) /\
    fst (wrapper self name m) = outcome (heap m) n /\
    heap (snd (wrapper self name m)) = after (heap m) (S n) /\
    calls (snd (wrapper self name m)) = calls m ++ past (heap m) (S n) /\
    invocations m (snd (wrapper self name m)) = S n /\
    ((n < Z.to_nat (ntries self - 1))%nat ->
     leaves_loop failureException testself (fst (wrapper self name m))).
Proof.
  unfold _wrapper.
  destruct (loop self name (range (ntries self - 1)) m) as [r m'] eqn:E.
  apply for_loop_spec in E. rewrite range_length in E.
  destruct E as (n & Hn & Hre & Hr & Hh & Hc & Hl).
  exists n. cbn [fst snd]. repeat split; try assumption.
  unfold invocations. rewrite Hc, length_app, history_length. lia.
Qed.

(** C1: with [ntries = N >= 1], a test that raises the failure exception on
    exactly its first [k] calls and then returns [v] makes the wrapper
    return [v] after [k + 1] calls when [k < N], and raise the failure
    exception after exactly [N] calls when [k >= N]; with [N = 1] there is
    one call, whose own result is the wrapper's. *)
Theorem retry_flaky_operation (self : retry) (name : string) (k : nat)
    (v : Val) (m : machine Self Args Val Heap) :
  1 <= ntries self ->
  (forall i, (i < k)%nat -> retryable (heap m) i) ->
  outcome (heap m) k = Returned v ->
  (Z.of_nat k < ntries self ->
     fst (wrapper self name m) = Returned v /\
     invocations m (snd (wrapper self name m)) = S k) /\
  (ntries self <= Z.of_nat k ->
     (exists e, fst (wrapper self name m) = Raised e /\
                except_matches (failureException testself) e = true) /\
     Z.of_nat (invocations m (snd (wrapper self name m))) = ntries self) /\
  (ntries self = 1 ->
     wrapper self name m = call testfn testself args m /\
     invocations m (snd (wrapper self name m)) = 1%nat).
Proof.
  intros HN Hfail Hok.
  destruct (wrapper_spec self name m)
    as (n & Hn & Hre & Hr & _ & _ & Hinv & Hl).
  split; [|split].
  - intro Hk.
    assert (n = k) as ->.
    { destruct (Nat.lt_trichotomy n k) as [Hlt | [Heq | Hgt]]; [|exact Heq|].
      - exfalso. apply (retryable_stays (heap m) n (Hfail n Hlt)).
        rewrite <- Hr. apply Hl. lia.
      - exfalso. destruct (Hre k Hgt) as (e & He & _). congruence. }
    split; [congruence | exact Hinv].
  - intro Hk.
    assert (Hlt : (n < k)%nat) by lia.
    assert (n = Z.to_nat (ntries self - 1)) as Hlast.
    { destruct (Nat.eq_dec n (Z.to_nat (ntries self - 1))) as [E|E];
        [exact E|exfalso].
      apply (retryable_stays (heap m) n (Hfail n Hlt)).
      rewrite <- Hr. apply Hl. lia. }
    split.
    + destruct (Hfail n Hlt) as (e & He & Hm). exists e.
      split; [congruence | exact Hm].
    + rewrite Hinv. lia.
  - intro H1. split.
    + unfold _wrapper. rewrite H1. reflexivity.
    + rewrite Hinv. f_equal. lia.
Qed.

(** C5: an exception of a class other than [testself.failureException],
    raised on an attempt the wrapper reaches, is the wrapper's result and
    no further call is made; raised on the first call, the test is called
    once whatever [ntries] is. *)
Theorem retry_other_failure_propagates (self : retry) (name : string)
    (j : nat) (e : exc) (m : machine Self Args Val Heap) :
  (forall i, (i < j)%nat -> retryable (heap m) i) ->
  outcome (heap m) j = Raised e ->
  except_matches (failureException testself) e = false ->
  Z.of_nat j < Z.max 1 (ntries self) ->
  fst (wrapper self name m) = Raised e /\
  invocations m (snd (wrapper self name m)) = S j.
Proof.
  intros Hfail He Hm Hj.
  destruct (wrapper_spec self name m)
    as (n & Hn & Hre & Hr & _ & _ & Hinv & Hl).
  assert (n = j) as ->.
  { destruct (Nat.lt_trichotomy n j) as [Hlt | [Heq | Hgt]]; [|exact Heq|].
    - exfalso. apply (retryable_stays (heap m) n (Hfail n Hlt)).
      rewrite <- Hr. apply Hl. lia.
    - exfalso. destruct (Hre j Hgt) as (e' & He' & Hm'). congruence. }
  split; [congruence | exact Hinv].
Qed.


End RetryFacts.

(** * The wrapper and its receiver *)

Section RetryReceivers.
Import Py Retry.

Variables (Self Args Val Heap : Type).
Variable failureException : Self -> option exc.
Variable testfn : test_function Self Args Val Heap.
Variable args : Args.

Local Abbreviation called self name :=
  (RetryCall._wrapper failureException self name testfn).

(** On a receiver whose [failureException] is the class [cls], the body of
    the wrapper does what [Retry.for_loop] does with that class. *)
Lemma for_loop_with_class (self : retry) (name : string) (testself : Self)
    (cls : exc) (todo : list Z) :
  failureException testself = Some cls ->
  forall m : machine Self Args Val Heap,
    RetryCall.for_loop failureException self name testfn testself args todo m
    = (RetryCall.FromTest
         (fst (Retry.for_loop (fun _ => cls) self name testfn testself args
                 todo m)),
       snd (Retry.for_loop (fun _ => cls) self name testfn testself args
              todo m)).
Proof.
  intro Hcls.
  induction todo as [|x rest IH]; intro m;
    cbn [RetryCall.for_loop Retry.for_loop].
  - now destruct (call testfn testself args m).
  - destruct (call testfn testself args m) as [[v|e] m1]; [reflexivity|].
    rewrite Hcls.
    destruct (except_matches cls e); [apply IH | reflexivity].
Qed.

(** C9, as stated, fails: called on an object that has no
    [failureException], the wrapper around a test that fails its first
    assertion ends with an [AttributeError] of its own. *)
Lemma retry_raises_an_error_of_its_own :
  ~ (forall (failureException : unit -> option exc) (self : retry)
       (name : string) (testfn : test_function unit unit string nat)
       (receiver : option unit) (m : machine unit unit string nat)
       (w : RetryCall.wrapper_error),
       fst (RetryCall._wrapper failureException self name testfn receiver
              tt m) <> RetryCall.FromWrapper w).
Proof.
  intro H.
  apply (H (fun _ => None) (Build_retry 3 false) "test_flaky"%string
           (flaky 1) (Some tt) fresh
           RetryCall.AttributeError_failureException).
  reflexivity.
Qed.

(** C9, amended: called on a receiver that has a [failureException], the
    wrapper ends with the result of its last call of the test, never with
    an exception of its own; every call before the last raised the failure
    exception; the last call is the first whose result the [except] clause
    does not handle, or else call number [max(1, ntries)]; every call was
    made with the receiver and the arguments the wrapper received; and a
    test whose first result the [except] clause does not handle behaves as
    if it had been called directly. *)
Theorem retry_failure_is_the_tests_own (self : retry) (name : string)
    (testself : Self) (cls : exc) (m : machine Self Args Val Heap) :
  failureException testself = Some cls ->
  (exists n : nat,
     fst (called self name (Some testself) args m) =
       RetryCall.FromTest (outcome_at testfn testself args (heap m) n) /\
     Z.of_nat (S n) <= Z.max 1 (ntries self) /\
     (forall i, (i < n)%nat ->
        retryable_at (fun _ => cls) testfn testself args (heap m) i) /\
     (leaves_loop (fun _ => cls) testself
        (outcome_at testfn testself args (heap m) n) \/
      Z.of_nat (S n) = Z.max 1 (ntries self)) /\
     heap (snd (called self name (Some testself) args m)) =
       heap_after testfn testself args (heap m) (S n) /\
     calls (snd (called self name (Some testself) args m)) =
       calls m ++ history testfn testself args (heap m) (S n) /\
     Forall (fun c => fst c = (testself, args))
       (history testfn testself args (heap m) (S n)) /\
     invocations m (snd (called self name (Some testself) args m)) = S n) /\
  (leaves_loop (fun _ => cls) testself
     (outcome_at testfn testself args (heap m) 0) ->
   called self name (Some testself) args m =
     (RetryCall.FromTest (fst (call testfn testself args m)),
      snd (call testfn testself args m))).
Proof.
  intro Hcls. unfold RetryCall._wrapper.
  rewrite (for_loop_with_class self name testself cls _ Hcls).
  cbn [fst snd].
  change (Retry.for_loop (fun _ => cls) self name testfn testself args
            (range (ntries self - 1)) m)
    with (Retry._wrapper (fun _ : Self => cls) self name testfn testself
            args m).
  split.
  - destruct (wrapper_spec _ _ _ _ (fun _ => cls) testfn testself args
                self name m) as (n & Hn & Hre & Hr & Hh & Hc & Hinv & Hl).
    exists n. rewrite Hr.
    split; [reflexivity|]. split; [lia|]. split; [exact Hre|]. split.
    { destruct (Nat.eq_dec n (Z.to_nat (ntries self - 1))) as [E|E].
      - right. lia.
      - left. rewrite <- Hr. apply Hl. lia. }
    split; [exact Hh|]. split; [exact Hc|]. split; [|exact Hinv].
    apply history_receiver.
  - intro Hl. unfold Retry._wrapper.
    destruct (range (ntries self - 1)) as [|x rest]; [reflexivity|].
    cbn [Retry.for_loop]. rewrite !call_eq. cbn [fst snd].
    destruct (outcome_at testfn testself args (heap m) 0) as [v|e];
      [reflexivity|].
    simpl in Hl. now rewrite Hl.
Qed.

(** X21: outside that case the wrapper fails on its own account: with no
    positional argument at all the test is not called; on a receiver
    without [failureException] the first failure of the test, of whatever
    class, is replaced by the [AttributeError] and the test is not called
    again. *)
Theorem retry_without_a_test_case (self : retry) (name : string)
    (m : machine Self Args Val Heap) :
  called self name None args m =
    (RetryCall.FromWrapper RetryCall.TypeError_missing_testself, m) /\
  (forall testself e,
     failureException testself = None ->
     1 < ntries self ->
     outcome_at testfn testself args (heap m) 0 = Raised e ->
     fst (called self name (Some testself) args m) =
       RetryCall.FromWrapper RetryCall.AttributeError_failureException /\
     invocations m (snd (called self name (Some testself) args m)) = 1%nat).
Proof.
  split; [reflexivity|].
  intros testself e Hnone Hn He. unfold RetryCall._wrapper.
  assert (Hr : exists rest, range (ntries self - 1) = 0 :: rest).
  { unfold range. destruct (Z.to_nat (ntries self - 1)) eqn:E; [lia|].
    cbn [seq map]. eauto. }
  destruct Hr as (rest & ->). cbn [RetryCall.for_loop].
  rewrite call_eq, He, Hnone. cbn [fst snd]. split; [reflexivity|].
  unfold invocations. cbn [calls]. rewrite length_app. cbn [List.length]. lia.
Qed.

End RetryReceivers.

(** * Properties of the guarded blocks *)

Section BlockFacts.
Import Py Signal.

(** Blocks never change the disposition of SIGALRM; how they end, what is
    left of the alarm and how long they take do not depend on the clock;
    and only the default disposition can terminate the process. *)
Lemma exec_clock (b : block) :
  forall (h : handler) (a : option nat),
  exists (o : outcome) (a' : option nat) (d : nat),
    (h <> SIG_DFL -> o <> Terminated) /\
    forall c, exec b (Process h a c) = (o, Process h a' (c + d)%nat).
Proof.
  induction b as [|n|e|b1 IH1 b2 IH2|body IHb cls except IHe]; intros h a.
  - exists Completed, a, 0%nat. split; [discriminate|].
    intro c. cbn [exec]. now rewrite Nat.add_0_r.
  - destruct a as [r|].
    + destruct (r <=? n)%nat eqn:E.
      * destruct h as [| |[e|]].
        -- exists Terminated, None, r. split; [congruence|].
           intro c. cbn [exec]. unfold sleep. cbn [alarm sigalrm clock].
           now rewrite E.
        -- exists Completed, None, n. split; [discriminate|].
           intro c. cbn [exec]. unfold sleep. cbn [alarm sigalrm clock].
           now rewrite E.
        -- exists (Failed e), None, r. split; [discriminate|].
           intro c. cbn [exec]. unfold sleep. cbn [alarm sigalrm clock].
           now rewrite E.
        -- exists Completed, None, n. split; [discriminate|].
           intro c. cbn [exec]. unfold sleep. cbn [alarm sigalrm clock].
           now rewrite E.
      * exists Completed, (Some (r - n)%nat), n. split; [discriminate|].
        intro c. cbn [exec]. unfold sleep. cbn [alarm sigalrm clock].
        now rewrite E.
    + exists Completed, None, n. split; [discriminate|].
      intro c. reflexivity.
  - exists (Failed e), a, 0%nat. split; [discriminate|].
    intro c. cbn [exec]. now rewrite Nat.add_0_r.
  - destruct (IH1 h a) as (o1 & a1 & d1 & Hk1 & H1).
    destruct (IH2 h a1) as (o2 & a2 & d2 & Hk2 & H2).
    destruct o1 as [|e|].
    + exists o2, a2, (d1 + d2)%nat. split; [exact Hk2|].
      intro c. cbn [exec]. rewrite H1, H2. now rewrite Nat.add_assoc.
    + exists (Failed e), a1, d1. split; [discriminate|].
      intro c. cbn [exec]. now rewrite H1.
    + exists Terminated, a1, d1. split; [exact Hk1|].
      intro c. cbn [exec]. now rewrite H1.
  - destruct (IHb h a) as (o1 & a1 & d1 & Hk1 & H1).
    destruct (IHe h a1) as (o2 & a2 & d2 & Hk2 & H2).
    destruct o1 as [|e|].
    + exists Completed, a1, d1. split; [discriminate|].
      intro c. cbn [exec]. now rewrite H1.
    + destruct (except_matches cls e) eqn:Em.
      * exists o2, a2, (d1 + d2)%nat. split; [exact Hk2|].
        intro c. cbn [exec]. rewrite H1, Em, H2. now rewrite Nat.add_assoc.
      * exists (Failed e), a1, d1. split; [discriminate|].
        intro c. cbn [exec]. now rewrite H1, Em.
    + exists Terminated, a1, d1. split; [exact Hk1|].
      intro c. cbn [exec]. now rewrite H1.
Qed.

(** With no alarm scheduled, or with an alarm further ahead than the block
    lasts, a block ends the way it does on its own, whatever the
    disposition of SIGALRM is; the alarm is left with the time that
    remains. *)
Lemma exec_shape (b : block) :
  exists (o : outcome) (d : nat),
    o <> Terminated /\
    (forall h c, exec b (Process h None c) = (o, Process h None (c + d)%nat)) /\
    (forall h r c, (d < r)%nat ->
       exec b (Process h (Some r) c) =
         (o, Process h (Some (r - d)%nat) (c + d)%nat)).
Proof.
  induction b as [|n|e|b1 IH1 b2 IH2|body IHb cls except IHe].
  - exists Completed, 0%nat. split; [discriminate|]. split.
    + intros h c. cbn [exec]. now rewrite Nat.add_0_r.
    + intros h r c _. cbn [exec]. now rewrite Nat.add_0_r, Nat.sub_0_r.
  - exists Completed, n. split; [discriminate|]. split.
    + reflexivity.
    + intros h r c Hr. cbn [exec]. unfold sleep. cbn [alarm sigalrm clock].
      destruct (Nat.leb_spec r n) as [Hle|_]; [lia | reflexivity].
  - exists (Failed e), 0%nat. split; [discriminate|]. split.
    + intros h c. cbn [exec]. now rewrite Nat.add_0_r.
    + intros h r c _. cbn [exec]. now rewrite Nat.add_0_r, Nat.sub_0_r.
  - destruct IH1 as (o1 & d1 & Hk1 & Hn1 & Hs1).
    destruct IH2 as (o2 & d2 & Hk2 & Hn2 & Hs2).
    destruct o1 as [|e|]; [| |congruence].
    + exists o2, (d1 + d2)%nat. split; [exact Hk2|]. split.
      * intros h c. cbn [exec]. rewrite Hn1, Hn2. now rewrite Nat.add_assoc.
      * intros h r c Hr. cbn [exec]. rewrite Hs1 by lia. rewrite Hs2 by lia.
        do 2 f_equal; [f_equal|]; lia.
    + exists (Failed e), d1. split; [discriminate|]. split.
      * intros h c. cbn [exec]. now rewrite Hn1.
      * intros h r c Hr. cbn [exec]. now rewrite Hs1.
  - destruct IHb as (o1 & d1 & Hk1 & Hn1 & Hs1).
    destruct IHe as (o2 & d2 & Hk2 & Hn2 & Hs2).
    destruct o1 as [|e|]; [| |congruence].
    + exists Completed, d1. split; [discriminate|]. split.
      * intros h c. cbn [exec]. now rewrite Hn1.
      * intros h r c Hr. cbn [exec]. now rewrite Hs1.
    + destruct (except_matches cls e) eqn:Em.
      * exists o2, (d1 + d2)%nat. split; [exact Hk2|]. split.
        -- intros h c. cbn [exec]. rewrite Hn1, Em, Hn2.
           now rewrite Nat.add_assoc.
        -- intros h r c Hr. cbn [exec]. rewrite Hs1 by lia. rewrite Em.
           rewrite Hs2 by lia. do 2 f_equal; [f_equal|]; lia.
      * exists (Failed e), d1. split; [discriminate|]. split.
        -- intros h c. cbn [exec]. now rewrite Hn1, Em.
        -- intros h r c Hr. cbn [exec]. now rewrite Hs1, Em.
Qed.

Lemma unguarded_exec (b : block) (o : outcome) (d : nat) :
  unguarded b = (o, d) ->
  o <> Terminated /\
  (forall h c, exec b (Process h None c) = (o, Process h None (c + d)%nat)) /\
  (forall h r c, (d < r)%nat ->
     exec b (Process h (Some r) c) =
       (o, Process h (Some (r - d)%nat) (c + d)%nat)).
Proof.
  intro H. destruct (exec_shape b) as (o' & d' & Hk & Hn & Hs).
  unfold unguarded, boot in H. rewrite Hn in H. cbn in H.
  inversion H; subst. auto.
Qed.

Lemma unguarded_seq (b1 b2 : block) :
  unguarded (Seq b1 b2) =
    match unguarded b1 with
    | (Completed, d1) => let (o2, d2) := unguarded b2 in (o2, (d1 + d2)%nat)
    | stop => stop
    end.
Proof.
  destruct (exec_shape b1) as (o1 & d1 & Hk1 & Hn1 & _).
  destruct (exec_shape b2) as (o2 & d2 & Hk2 & Hn2 & _).
  unfold unguarded, boot. cbn [exec]. rewrite !Hn1.
  destruct o1; cbn [clock]; try reflexivity.
  rewrite !Hn2. reflexivity.
Qed.

(** A block without a [try] of its own, still running when the alarm
    expires under a handler that raises, ends with that exception at the
    moment the alarm expires. *)
Lemma exec_deadline (e : exc) (b : block) :
  catches_nothing b = true ->
  forall (o : outcome) (d r c : nat),
    unguarded b = (o, d) -> (0 < r <= d)%nat ->
    exec b (Process (Callable (Some e)) (Some r) c) =
      (Failed e, Process (Callable (Some e)) None (c + r)%nat).
Proof.
  induction b as [|n|e'|b1 IH1 b2 IH2|body IHb cls except IHe];
    intros Hc o d r c Hu Hr; cbn in Hc; try discriminate.
  - cbn in Hu. inversion Hu; subst. lia.
  - cbn in Hu. inversion Hu; subst.
    cbn [exec]. unfold sleep. cbn [alarm sigalrm clock].
    destruct (Nat.leb_spec r d) as [_|Hlt]; [reflexivity | lia].
  - cbn in Hu. inversion Hu; subst. lia.
  - apply andb_true_iff in Hc. destruct Hc as [Hc1 Hc2].
    rewrite unguarded_seq in Hu.
    destruct (unguarded b1) as [o1 d1] eqn:E1.
    destruct (unguarded b2) as [o2 d2] eqn:E2.
    destruct (Nat.le_gt_cases r d1) as [Hle|Hgt].
    + cbn [exec]. now rewrite (IH1 Hc1 o1 d1 r c eq_refl) by lia.
    + destruct (unguarded_exec b1 o1 d1 E1) as (Hk & _ & Hs).
      cbn [exec]. rewrite Hs by exact Hgt.
      destruct o1 as [|e1|]; [| |congruence].
      * inversion Hu; subst.
        rewrite (IH2 Hc2 o d2 (r - d1)%nat (c + d1)%nat eq_refl) by lia.
        do 2 f_equal. lia.
      * inversion Hu; subst. lia.
Qed.

End BlockFacts.

(** * Properties of timeout *)

Section TimeoutFacts.
Import Py Signal Timeout.

Lemma timeout_entered (time : Z) (p : process) :
  0 <= time ->
  timeout_enter time p =
    (Completed,
     Process _handler (if time =? 0 then None else Some (Z.to_nat time))
             (clock p)).
Proof.
  intro H. unfold timeout_enter.
  destruct (Z.ltb_spec time 0) as [Hneg|_]; [lia | reflexivity].
Qed.

(** Under the guard's handler no block terminates the process. *)
Lemma guarded_not_terminated (b : block) (a : option nat) (c : nat) :
  fst (exec b (Process _handler a c)) <> Terminated.
Proof.
  destruct (exec_clock b _handler a) as (o & a' & d & Hk & H).
  rewrite H. cbn [fst]. apply Hk. discriminate.
Qed.

(** Once entered, the guard ends the way its block ends, and its [finally]
    clause has run on the process the block left. *)
Lemma timeout_unfold (time : Z) (b : block) (p : process) :
  0 <= time ->
  timeout time b p =
    (fst (exec b (snd (timeout_enter time p))),
     signal_signal SIG_IGN (snd (exec b (snd (timeout_enter time p))))).
Proof.
  intro H. unfold timeout. rewrite (timeout_entered time p H). cbn [snd].
  pose proof (guarded_not_terminated b
                (if time =? 0 then None else Some (Z.to_nat time))
                (clock p)) as Hk.
  destruct (exec b _) as [o p2]. cbn [fst snd] in *.
  unfold timeout_exit.
  destruct o as [|e|]; [reflexivity| |congruence].
  now destruct (except_matches TimeoutError e).
Qed.

(** A block that ends before the alarm expires, or runs with [time = 0]. *)
Lemma timeout_before_deadline (time : Z) (b : block) (p : process)
    (o : outcome) (d : nat) :
  0 <= time ->
  unguarded b = (o, d) ->
  time = 0 \/ Z.of_nat d < time ->
  timeout time b p =
    (o, Process SIG_IGN
          (if time =? 0 then None else Some (Z.to_nat time - d)%nat)
          (clock p + d)%nat).
Proof.
  intros H Hu Hd. rewrite (timeout_unfold time b p H).
  rewrite (timeout_entered time p H). cbn [snd].
  destruct (unguarded_exec b o d Hu) as (_ & Hn & Hs).
  destruct (Z.eqb_spec time 0) as [E|E].
  - now rewrite Hn.
  - rewrite Hs by lia. reflexivity.
Qed.

(** C2: with [time = 0] no alarm is scheduled: a block that sleeps [n]
    seconds under [timeout(0)] completes normally after its [n] seconds,
    however large [n] is, and every block ends under [timeout(0)] the way
    it ends on its own; no [TimeoutError] is raised by the guard. *)
Theorem timeout_zero_schedules_no_alarm (n : nat) (b : block) (p : process) :
  alarm (snd (timeout_enter 0 p)) = None /\
  timeout 0 (Sleep n) p =
    (Completed, Process SIG_IGN None (clock p + n)%nat) /\
  timeout 0 b p =
    (fst (unguarded b),
     Process SIG_IGN None (clock p + snd (unguarded b))%nat).
Proof.
  split; [reflexivity|]. split; [reflexivity|].
  apply (timeout_before_deadline 0 b p (fst (unguarded b))
           (snd (unguarded b))); [lia | | now left].
  now destruct (unguarded b).
Qed.

(** C3, as stated, fails: a guard of five seconds around one second of work
    leaves the alarm scheduled when it exits. *)
Lemma timeout_leaves_the_alarm_scheduled :
  ~ (forall (time : Z) (b : block) (p : process),
       0 <= time -> alarm (snd (timeout time b p)) = None).
Proof.
  intro H. specialize (H 5 (Sleep 1) boot ltac:(lia)).
  vm_compute in H. discriminate.
Qed.

(** C3, amended: on every way out of an entered guard the [finally] clause
    has run and SIGALRM is ignored; the alarm is not cancelled, but while
    SIGALRM stays ignored it cannot interrupt or terminate later work; and
    a later guard with the same duration behaves as on a first use, from
    whatever state it starts. *)
Theorem timeout_teardown_ignores_sigalrm (time : Z) (b : block)
    (p : process) :
  0 <= time ->
  timeout time b p =
    (fst (exec b (snd (timeout_enter time p))),
     signal_signal SIG_IGN (snd (exec b (snd (timeout_enter time p))))) /\
  fst (timeout time b p) <> Terminated /\
  sigalrm (snd (timeout time b p)) = SIG_IGN /\
  (forall n, fst (sleep n (snd (timeout time b p))) = Completed) /\
  (forall (b' : block) (q : process),
     fst (timeout time b' (snd (timeout time b p))) = fst (timeout time b' q) /\
     sigalrm (snd (timeout time b' (snd (timeout time b p)))) =
       sigalrm (snd (timeout time b' q)) /\
     alarm (snd (timeout time b' (snd (timeout time b p)))) =
       alarm (snd (timeout time b' q)) /\
     (clock (snd (timeout time b' (snd (timeout time b p)))) + clock q =
      clock (snd (timeout time b' q)) + clock (snd (timeout time b p)))%nat).
Proof.
  intro H. split; [exact (timeout_unfold time b p H)|].
  split.
  { rewrite (timeout_unfold time b p H), (timeout_entered time p H).
    cbn [fst snd]. apply guarded_not_terminated. }
  split; [now rewrite (timeout_unfold time b p H)|].
  split.
  { intro n. rewrite (timeout_unfold time b p H). cbn [snd].
    unfold sleep, signal_signal. cbn [alarm sigalrm clock].
    destruct (alarm _) as [r|]; [|reflexivity].
    now destruct (r <=? n)%nat. }
  intros b' q.
  rewrite (timeout_unfold time b' q H), (timeout_unfold time b' _ H).
  rewrite !(timeout_entered time _ H). cbn [fst snd].
  destruct (exec_clock b' _handler
              (if time =? 0 then None else Some (Z.to_nat time)))
    as (o & a' & d & _ & Hc).
  rewrite !Hc. cbn [fst snd signal_signal sigalrm alarm clock].
  repeat split. lia.
Qed.

(** C4, as stated, fails: started under the default disposition, a guard
    whose block ends well before the alarm leaves SIGALRM ignored. *)
Lemma timeout_does_not_restore_the_handler :
  ~ (forall (time : Z) (b : block) (p : process) (o : outcome) (d : nat),
       0 <= time -> unguarded b = (o, d) -> Z.of_nat d < time ->
       sigalrm (snd (timeout time b p)) = sigalrm p).
Proof.
  intro H.
  specialize (H 5 (Sleep 1) boot Completed 1%nat
                ltac:(lia) eq_refl ltac:(lia)).
  vm_compute in H. discriminate.
Qed.

(** C4, amended: when the block ends before the alarm expires, the guard
    ends as the block does and leaves SIGALRM ignored, with what remains of
    the alarm still scheduled; the disposition found on entry is the one
    left on exit only when it was [SIG_IGN] already. *)
Theorem timeout_leaves_sigalrm_ignored (time : Z) (b : block) (p : process)
    (o : outcome) (d : nat) :
  0 <= time ->
  unguarded b = (o, d) ->
  time = 0 \/ Z.of_nat d < time ->
  timeout time b p =
    (o, Process SIG_IGN
          (if time =? 0 then None else Some (Z.to_nat time - d)%nat)
          (clock p + d)%nat) /\
  (sigalrm (snd (timeout time b p)) = sigalrm p <-> sigalrm p = SIG_IGN).
Proof.
  intros H Hu Hd.
  rewrite (timeout_before_deadline time b p o d H Hu Hd). cbn [snd sigalrm].
  split; [reflexivity|]. split; congruence.
Qed.

(** C6: a block that raises [e] before the alarm expires makes the guard
    raise that same [e]. *)
Theorem timeout_propagates_other_failures (time : Z) (b : block)
    (p : process) (e : exc) (d : nat) :
  0 <= time ->
  unguarded b = (Failed e, d) ->
  time = 0 \/ Z.of_nat d < time ->
  fst (timeout time b p) = Failed e.
Proof.
  intros H Hu Hd.
  now rewrite (timeout_before_deadline time b p (Failed e) d H Hu Hd).
Qed.

(** C7: a block without a [try] of its own that is still running when the
    alarm expires makes the guard raise [TimeoutError], at the moment the
    alarm expires; whenever [TimeoutError] comes out of the block it comes
    out of the guard; and [TimeoutError] is not handled by an
    [except] clause for the failure exception of [unittest]. *)
Theorem timeout_raises_TimeoutError (time : Z) (b : block) (p : process) :
  (forall (o : outcome) (d : nat),
     0 < time -> catches_nothing b = true -> unguarded b = (o, d) ->
     time <= Z.of_nat d ->
     timeout time b p =
       (Failed TimeoutError,
        Process SIG_IGN None (clock p + Z.to_nat time)%nat)) /\
  (0 <= time ->
   fst (exec b (snd (timeout_enter time p))) = Failed TimeoutError ->
   fst (timeout time b p) = Failed TimeoutError) /\
  except_matches Retry.TestCase_failureException TimeoutError = false /\
  except_matches TimeoutError AssertionError = false.
Proof.
  split; [|split; [|split; reflexivity]].
  - intros o d Ht Hc Hu Hd.
    rewrite (timeout_unfold time b p) by lia.
    rewrite (timeout_entered time p) by lia. cbn [snd].
    destruct (Z.eqb_spec time 0) as [E|_]; [lia|].
    unfold _handler.
    rewrite (exec_deadline TimeoutError b Hc o d (Z.to_nat time) (clock p) Hu)
      by lia.
    reflexivity.
  - intros H Hb. now rewrite (timeout_unfold time b p H).
Qed.

(** C8: a negative [time] fails the assertion on entry: the guard raises
    [AssertionError], the block is not run and the process is left as it
    was; for every [time >= 0] the assertion passes, the handler is
    installed and the alarm is set. *)
Theorem timeout_requires_nonnegative_time (time : Z) (b : block)
    (p : process) :
  (time < 0 ->
   timeout_enter time p = (Failed AssertionError, p) /\
   timeout time b p = (Failed AssertionError, p)) /\
  (0 <= time ->
   timeout_enter time p =
     (Completed, signal_alarm time (signal_signal _handler p)) /\
   sigalrm (snd (timeout_enter time p)) = _handler).
Proof.
  split; intro H.
  - unfold timeout, timeout_enter.
    destruct (Z.ltb_spec time 0) as [_|Hge]; [split; reflexivity | lia].
  - unfold timeout_enter.
    destruct (Z.ltb_spec time 0) as [Hneg|_]; [lia | split; reflexivity].
Qed.

End TimeoutFacts.

(** * Further properties of retry *)

Section RetryLogging.
Import Py Retry.

Variables (Self Args Val Heap : Type).
Variable failureException : Self -> exc.
Variable testfn : test_function Self Args Val Heap.
Variable testself : Self.
Variable args : Args.

Local Abbreviation outcome := (outcome_at testfn testself args).
Local Abbreviation after := (heap_after testfn testself args).
Local Abbreviation past := (history testfn testself args).
Local Abbreviation loop self name :=
  (for_loop failureException self name testfn testself args).
Local Abbreviation wrapper self name :=
  (_wrapper failureException self name testfn testself args).

Lemma for_loop_flag (s1 s2 : retry) (n1 n2 : string) (todo : list Z) :
  forall m1 m2 : machine Self Args Val Heap,
    heap m1 = heap m2 -> calls m1 = calls m2 ->
    fst (loop s1 n1 todo m1) = fst (loop s2 n2 todo m2) /\
    heap (snd (loop s1 n1 todo m1)) = heap (snd (loop s2 n2 todo m2)) /\
    calls (snd (loop s1 n1 todo m1)) = calls (snd (loop s2 n2 todo m2)).
Proof.
  induction todo as [|x rest IH]; intros m1 m2 Hh Hc; cbn [for_loop].
  - rewrite !call_eq, Hh, Hc. cbn [fst snd heap calls]. auto.
  - rewrite !call_eq, Hh, Hc.
    destruct (outcome (heap m2) 0) as [v|e]; [cbn [fst snd heap calls]; auto|].
    destruct (except_matches (failureException testself) e);
      [|cbn [fst snd heap calls]; auto].
    apply IH; destruct (log_retry s1), (log_retry s2); reflexivity.
Qed.

(** X1: [log_retry] and the name under which the test is logged change nothing
    but the log: the result, the heap the test leaves and the calls made
    are the same with and without it. *)
Theorem retry_log_retry_only_logs (n : Z) (flag1 flag2 : bool)
    (name1 name2 : string) (m : machine Self Args Val Heap) :
  fst (wrapper (Build_retry n flag1) name1 m) =
    fst (wrapper (Build_retry n flag2) name2 m) /\
  heap (snd (wrapper (Build_retry n flag1) name1 m)) =
    heap (snd (wrapper (Build_retry n flag2) name2 m)) /\
  calls (snd (wrapper (Build_retry n flag1) name1 m)) =
    calls (snd (wrapper (Build_retry n flag2) name2 m)).
Proof. unfold _wrapper. cbn [ntries]. now apply for_loop_flag. Qed.



(** A test that fails its assertion whatever the heap is: where the
    wrapper leaves the heap and the record of calls. *)
Lemma always_failing (self : retry) (name : string)
    (m : machine Self Args Val Heap) :
  (forall h, exists e, fst (testfn testself args h) = Raised e /\
                       except_matches (failureException testself) e = true) ->
  (exists e, fst (wrapper self name m) = Raised e /\
             except_matches (failureException testself) e = true) /\
  heap (snd (wrapper self name m)) =
    after (heap m) (Z.to_nat (Z.max 1 (ntries self))) /\
  calls (snd (wrapper self name m)) =
    calls m ++ past (heap m) (Z.to_nat (Z.max 1 (ntries self))).
Proof.
  intro Hfail.
  destruct (wrapper_spec _ _ _ _ failureException testfn testself args
              self name m) as (n & Hn & _ & Hr & Hh & Hc & _ & Hl).
  assert (Hre : exists e, outcome (heap m) n = Raised e /\
                  except_matches (failureException testself) e = true)
    by apply Hfail.
  assert (n = Z.to_nat (ntries self - 1)) as Hlast.
  { destruct (Nat.eq_dec n (Z.to_nat (ntries self - 1))) as [E|E];
      [exact E|exfalso].
    apply (retryable_stays _ _ _ _ failureException testfn testself args
             (heap m) n Hre).
    rewrite <- Hr. apply Hl. lia. }
  replace (Z.to_nat (Z.max 1 (ntries self))) with (S n) by lia.
  split; [|split; assumption].
  destruct Hre as (e & He & Hm). exists e. split; [congruence | exact Hm].
Qed.

(** X3: a test that fails its assertion on every call is called exactly
    [max(1, ntries)] times, and the wrapper raises the failure of the last
    call. *)
Theorem retry_always_failing_test (self : retry) (name : string)
    (m : machine Self Args Val Heap) :
  (forall h, exists e, fst (testfn testself args h) = Raised e /\
                       except_matches (failureException testself) e = true) ->
  (exists e, fst (wrapper self name m) = Raised e /\
             except_matches (failureException testself) e = true) /\
  Z.of_nat (invocations m (snd (wrapper self name m))) =
    Z.max 1 (ntries self).
Proof.
  intro Hfail.
  destruct (always_failing self name m Hfail) as (He & _ & Hc).
  split; [exact He|].
  unfold invocations. rewrite Hc, length_app.
  rewrite (history_length _ _ _ _ testfn testself args). lia.
Qed.

End RetryLogging.

(** Two [retry] decorators on one test. *)

Section RetryStacked.
Import Py Retry.

Variables (Self Args Val Heap : Type).
Variable failureException : Self -> exc.
Variable testfn : test_function Self Args Val Heap.
Variable testself : Self.
Variable args : Args.
Variables (inner outer : retry) (name : string).

Local Abbreviation decorated_once :=
  (decorated failureException inner name testfn).

Hypothesis fails : forall h, exists e,
  fst (testfn testself args h) = Raised e /\
  except_matches (failureException testself) e = true.

Lemma decorated_once_fails (m : machine Self Args Val Heap) :
  exists e, fst (decorated_once testself args m) = Raised e /\
            except_matches (failureException testself) e = true.
Proof.
  unfold decorated.
  now destruct (always_failing _ _ _ _ failureException testfn testself args
                  inner name m fails) as (He & _).
Qed.

Lemma decorated_once_calls (k : nat) :
  forall m : machine Self Args Val Heap,
    List.length (calls (heap_after decorated_once testself args m k)) =
      (List.length (calls m) + k * Z.to_nat (Z.max 1 (ntries inner)))%nat.
Proof.
  induction k as [|k IH]; intro m; cbn [heap_after]; [lia|].
  rewrite IH. unfold decorated.
  destruct (always_failing _ _ _ _ failureException testfn testself args
              inner name m fails) as (_ & _ & Hc).
  rewrite Hc, length_app, history_length. lia.
Qed.

(** X4: [retry(outer)(retry(inner)(testfn))] on a test that always fails its
    assertion: the test is called [max(1, outer) * max(1, inner)] times. *)
Theorem retry_stacked_multiplies
    (m : machine Self Args Val (machine Self Args Val Heap)) :
  Z.of_nat
    (invocations (heap m)
       (heap (snd (_wrapper failureException outer name decorated_once
                     testself args m)))) =
    Z.max 1 (ntries outer) * Z.max 1 (ntries inner).
Proof.
  destruct (always_failing _ _ _ _ failureException decorated_once testself
              args outer name m decorated_once_fails) as (_ & Hh & _).
  unfold invocations. rewrite Hh, decorated_once_calls. nia.
Qed.

End RetryStacked.

(** * Further properties of timeout *)

Section GuardFacts.
Import Py Signal Timeout Guards.

Lemma unguarded_try (body : block) (cls : exc) (except : block) :
  unguarded (Try body cls except) =
    match unguarded body with
    | (Failed e, d1) =>
        if except_matches cls e
        then let (o2, d2) := unguarded except in (o2, (d1 + d2)%nat)
        else (Failed e, d1)
    | other => other
    end.
Proof.
  destruct (exec_shape body) as (o1 & d1 & Hk1 & Hn1 & _).
  destruct (exec_shape except) as (o2 & d2 & Hk2 & Hn2 & _).
  unfold unguarded, boot. cbn [exec]. rewrite !Hn1.
  destruct o1 as [|e|]; cbn [clock]; try reflexivity.
  destruct (except_matches cls e); [|reflexivity].
  rewrite !Hn2. reflexivity.
Qed.

(** While SIGALRM is ignored a block ends the way it does on its own,
    whatever alarm is scheduled. *)
Lemma exec_ignored (b : block) :
  forall (o : outcome) (d : nat), unguarded b = (o, d) ->
  forall a, exists a',
    forall c, exec b (Process SIG_IGN a c) = (o, Process SIG_IGN a' (c + d)%nat).
Proof.
  induction b as [|n|e|b1 IH1 b2 IH2|body IHb cls except IHe];
    intros o d Hu a.
  - inversion Hu; subst. exists a. intro c. cbn [exec].
    now rewrite Nat.add_0_r.
  - inversion Hu; subst. cbn [exec]. unfold sleep. cbn [alarm sigalrm clock].
    destruct a as [r|]; [|now exists None].
    destruct (r <=? d)%nat; eexists; intro c; reflexivity.
  - inversion Hu; subst. exists a. intro c. cbn [exec].
    now rewrite Nat.add_0_r.
  - rewrite unguarded_seq in Hu.
    destruct (unguarded b1) as [o1 d1] eqn:E1.
    destruct (unguarded b2) as [o2 d2] eqn:E2.
    destruct (IH1 o1 d1 eq_refl a) as (a1 & H1).
    destruct (IH2 o2 d2 eq_refl a1) as (a2 & H2).
    destruct o1 as [|e|]; inversion Hu; subst.
    + exists a2. intro c. cbn [exec]. rewrite H1, H2.
      now rewrite Nat.add_assoc.
    + exists a1. intro c. cbn [exec]. now rewrite H1.
    + exists a1. intro c. cbn [exec]. now rewrite H1.
  - rewrite unguarded_try in Hu.
    destruct (unguarded body) as [o1 d1] eqn:E1.
    destruct (unguarded except) as [o2 d2] eqn:E2.
    destruct (IHb o1 d1 eq_refl a) as (a1 & H1).
    destruct (IHe o2 d2 eq_refl a1) as (a2 & H2).
    destruct o1 as [|e|].
    + inversion Hu; subst. exists a1. intro c. cbn [exec]. now rewrite H1.
    + destruct (except_matches cls e) eqn:Em; inversion Hu; subst.
      * exists a2. intro c. cbn [exec]. rewrite H1, Em, H2.
        now rewrite Nat.add_assoc.
      * exists a1. intro c. cbn [exec]. now rewrite H1, Em.
    + inversion Hu; subst. exists a1. intro c. cbn [exec]. now rewrite H1.
Qed.

Lemma unguarded_not_terminated (b : block) : fst (unguarded b) <> Terminated.
Proof.
  destruct (unguarded b) as [o d] eqn:E.
  now destruct (unguarded_exec b o d E).
Qed.

Lemma timeout_exit_finally (o : outcome) (p : process) :
  o <> Terminated -> timeout_exit o p = (o, signal_signal SIG_IGN p).
Proof.
  intro H. unfold timeout_exit. destruct o as [|e|]; [reflexivity| |congruence].
  now destruct (except_matches TimeoutError e).
Qed.

Lemma run_then (c1 c2 : code) (p : process) :
  run (Then c1 c2) p =
    match run c1 p with
    | (Completed, p1) => run c2 p1
    | stop => stop
    end.
Proof. reflexivity. Qed.

Lemma run_guarded_plain (time : Z) (b : block) (p : process) :
  run (Guarded time (Plain b)) p = timeout time b p.
Proof. reflexivity. Qed.

Lemma run_guarded (time : Z) (c : code) (p : process) :
  run (Guarded time c) p = timeout_around time (run c) p.
Proof. reflexivity. Qed.

(** X5: an entered guard with [time > 0] around a block without a [try] of its
    own lasts as long as the block or [time] seconds, whichever is less:
    the block's own ending when it is the shorter, [TimeoutError]
    otherwise. *)
Theorem timeout_bounds_the_duration (time : Z) (b : block) (p : process)
    (o : outcome) (d : nat) :
  0 < time ->
  catches_nothing b = true ->
  unguarded b = (o, d) ->
  fst (timeout time b p) =
    (if Z.of_nat d <? time then o else Failed TimeoutError) /\
  clock (snd (timeout time b p)) = (clock p + Nat.min d (Z.to_nat time))%nat.
Proof.
  intros Ht Hc Hu.
  destruct (Z.ltb_spec (Z.of_nat d) time) as [Hlt|Hge].
  - rewrite (timeout_before_deadline time b p o d) by (lia || assumption).
    cbn [fst snd clock]. split; [reflexivity|]. f_equal. lia.
  - rewrite (timeout_unfold time b p) by lia.
    rewrite (timeout_entered time p) by lia. cbn [snd].
    destruct (Z.eqb_spec time 0) as [E|_]; [lia|].
    unfold _handler.
    rewrite (exec_deadline TimeoutError b Hc o d (Z.to_nat time) (clock p) Hu)
      by lia.
    cbn [fst snd signal_signal clock]. split; [reflexivity|]. f_equal. lia.
Qed.

(** X6: a guarded block that catches the [TimeoutError] itself, with
    [except TimeoutError], [except OSError] or [except Exception], goes on
    with its [except] clause, which then runs to its end however long it
    takes: the alarm is spent and the guard sets no second one. *)
Theorem timeout_caught_by_the_block (time : Z) (body : block) (cls : exc)
    (except : block) (p : process) (o : outcome) (d : nat) :
  0 < time ->
  catches_nothing body = true ->
  unguarded body = (o, d) ->
  time <= Z.of_nat d ->
  except_matches cls TimeoutError = true ->
  timeout time (Try body cls except) p =
    (fst (unguarded except),
     Process SIG_IGN None
       (clock p + Z.to_nat time + snd (unguarded except))%nat).
Proof.
  intros Ht Hc Hu Hd Hm.
  rewrite (timeout_unfold time _ p) by lia.
  rewrite (timeout_entered time p) by lia. cbn [snd].
  destruct (Z.eqb_spec time 0) as [E|_]; [lia|].
  cbn [exec]. unfold _handler.
  rewrite (exec_deadline TimeoutError body Hc o d (Z.to_nat time) (clock p) Hu)
    by lia.
  rewrite Hm.
  destruct (unguarded except) as [o2 d2] eqn:E2.
  destruct (unguarded_exec except o2 d2 E2) as (_ & Hn & _).
  rewrite Hn. reflexivity.
Qed.

(** X7: the alarm the guard leaves scheduled is delivered to whoever handles
    SIGALRM next: when the block ends after [d < time] seconds and a
    handler that raises [e] is installed afterwards, work that lasts until
    the alarm is due is interrupted by [e], [time] seconds after the guard
    was entered. *)
Theorem timeout_leftover_alarm_is_delivered (time : Z) (b : block)
    (e : exc) (n d : nat) (p : process) :
  0 <= time ->
  unguarded b = (Completed, d) ->
  Z.of_nat d < time ->
  time <= Z.of_nat (d + n) ->
  run (Then (Guarded time (Plain b))
         (Then (Install (Callable (Some e))) (Plain (Sleep n)))) p =
    (Failed e,
     Process (Callable (Some e)) None (clock p + Z.to_nat time)%nat).
Proof.
  intros Ht Hu Hd Hn. rewrite run_then, run_guarded_plain.
  rewrite (timeout_before_deadline time b p Completed d) by (lia || assumption).
  destruct (Z.eqb_spec time 0) as [E|_]; [lia|].
  cbn [run exec]. unfold signal_signal, sleep. cbn [alarm sigalrm clock].
  destruct (Nat.leb_spec (Z.to_nat time - d) n) as [_|Hgt]; [|lia].
  do 2 f_equal. lia.
Qed.

(** X8: a guard inside a guard: once the inner guard has been left, SIGALRM is
    ignored and the outer guard's alarm has been replaced, so the rest of
    the outer block ends the way it does on its own, however long it
    takes; the outer deadline is never enforced. *)
Theorem timeout_nested_loses_outer_deadline (outer inner : Z)
    (b rest : block) (d : nat) (p : process) :
  0 <= outer -> 0 <= inner ->
  unguarded b = (Completed, d) ->
  inner = 0 \/ Z.of_nat d < inner ->
  fst (run (Guarded outer (Then (Guarded inner (Plain b)) (Plain rest))) p) =
    fst (unguarded rest) /\
  sigalrm (snd (run (Guarded outer
                       (Then (Guarded inner (Plain b)) (Plain rest))) p)) =
    SIG_IGN /\
  clock (snd (run (Guarded outer
                     (Then (Guarded inner (Plain b)) (Plain rest))) p)) =
    (clock p + d + snd (unguarded rest))%nat.
Proof.
  intros Ho Hi Hu Hd. rewrite run_guarded. unfold timeout_around.
  rewrite (timeout_entered outer p Ho).
  rewrite run_then, run_guarded_plain.
  rewrite (timeout_before_deadline inner b _ Completed d Hi Hu Hd).
  cbn [clock run].
  destruct (unguarded rest) as [o2 d2] eqn:E2.
  destruct (exec_ignored rest o2 d2 E2
              (if inner =? 0 then None else Some (Z.to_nat inner - d)%nat))
    as (a' & Hr).
  rewrite Hr.
  rewrite timeout_exit_finally.
  - cbn [fst snd signal_signal sigalrm clock]. repeat split.
  - pose proof (unguarded_not_terminated rest) as Hk.
    rewrite E2 in Hk. exact Hk.
Qed.

End GuardFacts.

(** * Strings *)

Section StringFacts.

Lemma append_nil_r (s : string) : (s ++ "")%string = s.
Proof. induction s as [|c s IH]; [reflexivity|]. cbn. now rewrite IH. Qed.

Lemma append_assoc (a b c : string) :
  (a ++ (b ++ c))%string = ((a ++ b) ++ c)%string.
Proof. induction a as [|x a IH]; [reflexivity|]. cbn. now rewrite IH. Qed.

Lemma append_length (a b : string) :
  String.length (a ++ b) = (String.length a + String.length b)%nat.
Proof. induction a as [|x a IH]; [reflexivity|]. cbn. now rewrite IH. Qed.

End StringFacts.

(** * Properties of tempdir *)

Section TempDirFacts.
Import Py TempDir.

Lemma path_eqb_eq (p q : path) : path_eqb p q = true <-> p = q.
Proof.
  unfold path_eqb. destruct (list_eq_dec string_dec p q); split;
    congruence.
Qed.

Lemma exists_In (fs : filesystem) (p : path) :
  exists_ fs p = true <-> In p fs.
Proof.
  unfold exists_. rewrite existsb_exists. split.
  - intros (q & Hq & He). apply path_eqb_eq in He. now subst.
  - intro H. exists p. split; [exact H | now apply path_eqb_eq].
Qed.

Lemma is_prefix_refl (d : path) : is_prefix d d = true.
Proof.
  induction d as [|x d IH]; [reflexivity|]. cbn.
  destruct (string_dec x x); [exact IH | congruence].
Qed.

(** The directory [mkdtemp] makes is one of the candidates, did not exist
    before, and is the only change. *)
Lemma mkdtemp_fresh (names : list path) (fs fs1 : filesystem) (d : path) :
  mkdtemp names fs = Some (d, fs1) ->
  In d names /\ exists_ fs d = false /\ fs1 = d :: fs.
Proof.
  induction names as [|x rest IH]; cbn; [discriminate|].
  destruct (exists_ fs x) eqn:E.
  - intro H. destruct (IH H) as (Hi & He & Hf). auto.
  - intro H. inversion H; subst. auto.
Qed.

Lemma nothing_below_fresh (fs : filesystem) (d : path) :
  closed fs -> exists_ fs d = false ->
  filter (fun p => negb (is_prefix d p)) fs = fs.
Proof.
  intros Hc Hd. apply forallb_filter_id. apply forallb_forall.
  intros p Hp. destruct (is_prefix d p) eqn:E; [|reflexivity].
  apply (Hc d p Hp) in E. apply exists_In in E. congruence.
Qed.

Lemma everything_below_removed (d : path) (created : list path) :
  Forall (fun p => is_prefix d p = true) created ->
  filter (fun p => negb (is_prefix d p)) created = [].
Proof.
  induction 1 as [|p l Hp _ IH]; [reflexivity|].
  cbn. now rewrite Hp.
Qed.

(** X9: when the block returns, having created files and directories only
    below the temporary directory, the file system is left exactly as it
    was found: the directory and all that is in it are gone. *)
Theorem tempdir_restores_the_filesystem (names : list path)
    (body : path -> filesystem -> result unit * filesystem)
    (fs fs1 : filesystem) (d : path) (created : list path) (v : unit) :
  closed fs ->
  mkdtemp names fs = Some (d, fs1) ->
  body d fs1 = (Returned v, created ++ fs1) ->
  Forall (fun p => is_prefix d p = true) created ->
  tempdir names body fs = (Done, fs).
Proof.
  intros Hc Hm Hb Hcr.
  destruct (mkdtemp_fresh names fs fs1 d Hm) as (_ & Hd & ->).
  unfold tempdir. rewrite Hm, Hb. unfold rmtree.
  assert (He : exists_ (created ++ d :: fs) d = true).
  { apply exists_In, in_or_app. right. now left. }
  rewrite He, filter_app, (everything_below_removed d created Hcr).
  cbn [app filter]. rewrite is_prefix_refl. cbn [negb].
  now rewrite (nothing_below_fresh fs d Hc Hd).
Qed.

(** X10: when the block raises, the exception leaves the generator at its
    [yield] and [shutil.rmtree] is not reached: the temporary directory
    and everything the block created in it stay on disk. *)
Theorem tempdir_keeps_the_directory_on_failure (names : list path)
    (body : path -> filesystem -> result unit * filesystem)
    (fs fs1 : filesystem) (d : path) (created : list path) (e : exc) :
  mkdtemp names fs = Some (d, fs1) ->
  body d fs1 = (Raised e, created ++ fs1) ->
  tempdir names body fs = (BodyRaised e, created ++ d :: fs) /\
  exists_ fs d = false /\
  exists_ (snd (tempdir names body fs)) d = true /\
  (forall p, In p created -> exists_ (snd (tempdir names body fs)) p = true).
Proof.
  intros Hm Hb.
  destruct (mkdtemp_fresh names fs fs1 d Hm) as (_ & Hd & ->).
  unfold tempdir. rewrite Hm, Hb. cbn [snd].
  split; [reflexivity|]. split; [exact Hd|]. split.
  - apply exists_In, in_or_app. right. now left.
  - intros p Hp. apply exists_In, in_or_app. now left.
Qed.

(** X11: a block that removes the temporary directory itself makes the exit of
    [tempdir] fail: [shutil.rmtree] finds nothing to remove. *)
Theorem tempdir_fails_when_directory_is_gone (names : list path)
    (body : path -> filesystem -> result unit * filesystem)
    (fs fs1 fs2 : filesystem) (d : path) (v : unit) :
  mkdtemp names fs = Some (d, fs1) ->
  body d fs1 = (Returned v, fs2) ->
  exists_ fs2 d = false ->
  tempdir names body fs = (CleanupFailed, fs2).
Proof.
  intros Hm Hb Hd. unfold tempdir, rmtree. now rewrite Hm, Hb, Hd.
Qed.

End TempDirFacts.

(** * Properties of capture_output *)

Section CaptureFacts.
Import Py Capture.

Lemma concat_empty_cons (x : string) (xs : list string) :
  String.concat "" (x :: xs) = (x ++ String.concat "" xs)%string.
Proof.
  destruct xs as [|y ys]; cbn [String.concat].
  - now rewrite append_nil_r.
  - reflexivity.
Qed.

Lemma concat_empty_app (xs ys : list string) :
  String.concat "" (xs ++ ys) =
    (String.concat "" xs ++ String.concat "" ys)%string.
Proof.
  induction xs as [|x xs IH]; [reflexivity|].
  cbn [app]. rewrite !concat_empty_cons, IH.
  now rewrite append_assoc.
Qed.

Lemma getvalue_write (i j : nat) (text : string) (w : io) :
  getvalue i (write j text w) =
    if Nat.eqb j i then (getvalue i w ++ text)%string else getvalue i w.
Proof.
  unfold getvalue, write. cbn [written].
  rewrite filter_app, map_app, concat_empty_app. cbn [filter fst].
  destruct (Nat.eqb j i); cbn [map snd String.concat].
  - reflexivity.
  - now rewrite append_nil_r.
Qed.

(** A block whose two streams are both [sio] adds its output to [sio],
    writes to no other stream, and leaves the streams as they are. *)
Lemma run_redirected (sio : nat) (cs : list command) :
  forall w : io,
    sys_stdout w = sio -> sys_stderr w = sio ->
    getvalue sio (snd (run cs w)) = (getvalue sio w ++ output cs)%string /\
    (forall j, j <> sio -> getvalue j (snd (run cs w)) = getvalue j w) /\
    sys_stdout (snd (run cs w)) = sio /\
    sys_stderr (snd (run cs w)) = sio /\
    objects (snd (run cs w)) = objects w /\
    (Forall (fun entry => (fst entry < S sio)%nat) (written w) ->
     Forall (fun entry => (fst entry < S sio)%nat) (written (snd (run cs w)))).
Proof.
  pose proof append_nil_r as Hnil.
  induction cs as [|c cs IH]; intros w Ho He.
  - cbn [run output snd]. rewrite Hnil. repeat split; auto.
  - destruct c as [text|text|e]; cbn [run output].
    + rewrite Ho.
      destruct (IH (write sio text w)) as (H1 & H2 & H3 & H4 & H5 & H6);
        [exact Ho | exact He |].
      rewrite H1, getvalue_write, Nat.eqb_refl, <- append_assoc.
      split; [reflexivity|]. split.
      { intros j Hj. rewrite (H2 j Hj), getvalue_write.
        destruct (Nat.eqb_spec sio j); [congruence | reflexivity]. }
      repeat split; try assumption.
      intro Hw. apply H6. unfold write. cbn [written].
      apply Forall_app. split; [exact Hw|]. constructor; [cbn; lia|constructor].
    + rewrite He.
      destruct (IH (write sio text w)) as (H1 & H2 & H3 & H4 & H5 & H6);
        [exact Ho | exact He |].
      rewrite H1, getvalue_write, Nat.eqb_refl, <- append_assoc.
      split; [reflexivity|]. split.
      { intros j Hj. rewrite (H2 j Hj), getvalue_write.
        destruct (Nat.eqb_spec sio j); [congruence | reflexivity]. }
      repeat split; try assumption.
      intro Hw. apply H6. unfold write. cbn [written].
      apply Forall_app. split; [exact Hw|]. constructor; [cbn; lia|constructor].
    + cbn [snd]. rewrite Hnil. repeat split; auto.
Qed.

Lemma getvalue_fresh (w : io) :
  well_formed w -> getvalue (objects w) w = ""%string.
Proof.
  intros (Hw & _). unfold getvalue.
  replace (filter _ (written w)) with (@nil (nat * string)); [reflexivity|].
  symmetry. induction Hw as [|x l Hx _ IH]; [reflexivity|].
  cbn [filter]. destruct (Nat.eqb_spec (fst x) (objects w)); [lia | exact IH].
Qed.

Lemma run_ending (cs : list command) :
  forall w : io, fst (run cs w) = ending cs.
Proof.
  induction cs as [|c cs IH]; intro w; [reflexivity|].
  destruct c; cbn [run ending]; try apply IH. reflexivity.
Qed.

(** What one use of [capture_output] around a block does. *)
Lemma capture_output_spec (cs : list command) (w : io) :
  well_formed w ->
  fst (fst (capture_output (fun _ => run cs) w)) = objects w /\
  snd (fst (capture_output (fun _ => run cs) w)) = ending cs /\
  getvalue (objects w) (snd (capture_output (fun _ => run cs) w)) =
    output cs /\
  (forall j, j <> objects w ->
     getvalue j (snd (capture_output (fun _ => run cs) w)) = getvalue j w) /\
  sys_stdout (snd (capture_output (fun _ => run cs) w)) = sys_stdout w /\
  sys_stderr (snd (capture_output (fun _ => run cs) w)) = sys_stderr w /\
  objects (snd (capture_output (fun _ => run cs) w)) = S (objects w) /\
  well_formed (snd (capture_output (fun _ => run cs) w)).
Proof.
  intro Hwf. pose proof (getvalue_fresh w Hwf) as Hfresh.
  destruct Hwf as (Hw & Ho & He).
  unfold capture_output, StringIO, set_stdout, set_stderr.
  cbn [sys_stdout sys_stderr objects written].
  destruct (run_redirected (objects w) cs
              (IO (objects w) (objects w) (written w) (S (objects w)))
              eq_refl eq_refl)
    as (H1 & H2 & _ & _ & H5 & H6).
  pose proof (run_ending cs
                (IO (objects w) (objects w) (written w) (S (objects w))))
    as Hr.
  destruct (run cs _) as [r w3]. cbn [fst snd] in *.
  unfold well_formed, getvalue in *.
  cbn [sys_stdout sys_stderr objects written] in *.
  rewrite Hfresh in H1.
  split; [reflexivity|]. split; [exact Hr|]. split; [exact H1|]. split.
  { intros j Hj. exact (H2 j Hj). }
  split; [reflexivity|]. split; [reflexivity|]. split; [exact H5|].
  rewrite H5. split; [|lia].
  apply H6. eapply Forall_impl; [|exact Hw]. cbn. intros a Ha. lia.
Qed.

(** X12: [capture_output] gathers in one buffer, in the order written,
    everything the block writes to [sys.stdout] and to [sys.stderr] until
    it returns or raises; no other stream receives anything; and on the
    way out, also when the block raised, [sys.stdout] and [sys.stderr]
    are the streams they were on entry. *)
Theorem capture_output_gathers_and_restores (cs : list command) (w : io) :
  well_formed w ->
  let '(sio, r, w') := capture_output (fun _ => run cs) w in
  r = ending cs /\
  getvalue sio w' = output cs /\
  (forall j, j <> sio -> getvalue j w' = getvalue j w) /\
  sys_stdout w' = sys_stdout w /\
  sys_stderr w' = sys_stderr w.
Proof.
  intro Hwf.
  destruct (capture_output_spec cs w Hwf)
    as (H1 & H2 & H3 & H4 & H5 & H6 & _).
  destruct (capture_output (fun _ => run cs) w) as [[sio r] w'].
  cbn [fst snd] in *. subst sio. auto.
Qed.

(** X13: two uses of [capture_output] one after the other, as in
    [display_data]: each buffer holds the output of its own block and
    nothing of the other's, also when the first block wrote to both
    streams. *)
Theorem capture_output_buffers_are_separate (cs1 cs2 : list command)
    (w : io) :
  well_formed w ->
  let '(sio1, _, w1) := capture_output (fun _ => run cs1) w in
  let '(sio2, _, w2) := capture_output (fun _ => run cs2) w1 in
  sio1 <> sio2 /\
  getvalue sio1 w2 = output cs1 /\
  getvalue sio2 w2 = output cs2 /\
  sys_stdout w2 = sys_stdout w /\
  sys_stderr w2 = sys_stderr w.
Proof.
  intro Hwf.
  destruct (capture_output_spec cs1 w Hwf)
    as (A1 & _ & A3 & _ & A5 & A6 & A7 & A8).
  destruct (capture_output (fun _ => run cs1) w) as [[sio1 r1] w1].
  cbn [fst snd] in *.
  destruct (capture_output_spec cs2 w1 A8)
    as (B1 & _ & B3 & B4 & B5 & B6 & _).
  destruct (capture_output (fun _ => run cs2) w1) as [[sio2 r2] w2].
  cbn [fst snd] in *. subst sio1 sio2.
  split; [lia|]. split.
  - rewrite B4 by lia. exact A3.
  - split; [exact B3|]. split; congruence.
Qed.

End CaptureFacts.

(** * Properties of is_new_task_filename *)

Section TaskFacts.
Import Tasks.

Lemma prefix_spec (n : string) :
  forall s, String.prefix n s = true <-> exists b, s = (n ++ b)%string.
Proof.
  induction n as [|c n IH]; intro s.
  - destruct s; cbn; split; eauto.
  - destruct s as [|c' s]; cbn.
    + split; [discriminate | intros (b & Hb); discriminate].
    + destruct (Ascii.ascii_dec c c') as [->|Hne].
      * rewrite IH. split; intros (b & Hb); exists b; congruence.
      * split; [discriminate | intros (b & Hb); congruence].
Qed.

Lemma contains_unfold (n s : string) :
  contains n s =
    if String.prefix n s then true
    else match s with
         | EmptyString => false
         | String _ rest => contains n rest
         end.
Proof. destruct s; reflexivity. Qed.

(** [needle in hay] holds exactly when [hay] is some text, then [needle],
    then some text. *)
Lemma contains_spec (n : string) :
  forall s, contains n s = true <->
            exists a b, s = (a ++ n ++ b)%string.
Proof.
  intro s. split.
  - induction s as [|c s IH]; rewrite contains_unfold.
    + destruct (String.prefix n "") eqn:E; [|discriminate].
      intros _. apply prefix_spec in E. destruct E as (b & Hb).
      exists ""%string, b. exact Hb.
    + destruct (String.prefix n (String c s)) eqn:E.
      * intros _. apply prefix_spec in E. destruct E as (b & Hb).
        exists ""%string, b. exact Hb.
      * intro H. destruct (IH H) as (a & b & Hab).
        exists (String c a), b. cbn. now rewrite Hab.
  - intros (a & b & Hab). revert s Hab.
    induction a as [|c a IH]; intros s Hab; rewrite contains_unfold.
    + replace (String.prefix n s) with true; [reflexivity|].
      symmetry. apply prefix_spec. now exists b.
    + destruct (String.prefix n s); [reflexivity|].
      subst s. cbn. now apply IH.
Qed.

Lemma is_new_task_filename_occurrences (filename : string) :
  is_new_task_filename filename = true ->
  (exists a b, filename = (a ++ "parlai/tasks" ++ b)%string) /\
  ~ (exists a b, filename = (a ++ "README" ++ b)%string) /\
  ~ (exists a b, filename = (a ++ "task_list.py" ++ b)%string).
Proof.
  unfold is_new_task_filename.
  rewrite !andb_true_iff, !negb_true_iff, <- !not_true_iff_false.
  rewrite !contains_spec. tauto.
Qed.

(** X14: a file name counts as a new task exactly when ["parlai/tasks"] occurs
    in it and neither ["README"] nor ["task_list.py"] occurs anywhere in
    it. *)
Theorem is_new_task_filename_spec (filename : string) :
  is_new_task_filename filename = true <->
  (exists a b, filename = (a ++ "parlai/tasks" ++ b)%string) /\
  ~ (exists a b, filename = (a ++ "README" ++ b)%string) /\
  ~ (exists a b, filename = (a ++ "task_list.py" ++ b)%string).
Proof.
  split; [apply is_new_task_filename_occurrences|].
  unfold is_new_task_filename.
  rewrite !andb_true_iff, !negb_true_iff, <- !not_true_iff_false.
  rewrite !contains_spec. tauto.
Qed.

(** X15: ["README"] or ["task_list.py"] anywhere in the path, in the name of a
    directory as much as in the name of the file, keeps a path from
    counting as a new task; and a path that counts has at least the
    twelve characters of ["parlai/tasks"]. *)
Theorem is_new_task_filename_exclusions (a b : string) :
  is_new_task_filename (a ++ "README" ++ b) = false /\
  is_new_task_filename (a ++ "task_list.py" ++ b) = false /\
  (is_new_task_filename a = true -> (12 <= String.length a)%nat).
Proof.
  split; [|split].
  - apply not_true_iff_false. intro H.
    apply is_new_task_filename_occurrences in H. destruct H as (_ & H & _).
    apply H. now exists a, b.
  - apply not_true_iff_false. intro H.
    apply is_new_task_filename_occurrences in H. destruct H as (_ & _ & H).
    apply H. now exists a, b.
  - intro H. apply is_new_task_filename_occurrences in H.
    destruct H as ((x & y & ->) & _).
    rewrite !append_length. cbn. lia.
Qed.

End TaskFacts.

(** * Properties of the skip decorators *)

Section SkipFacts.
Import Py Skips.

Variables (World Val : Type).
Variable env : environment.
Variable testfn : test World Val.

(** X16: in any environment a test is run by exactly one of [skipIfGPU] and
    [skipUnlessGPU], which then behaves as the test itself, and the other
    skips it without touching the world; under both decorators the test is
    never run. *)
Theorem skip_gpu_decorators_are_complementary (w : World) :
  ((skipIfGPU env testfn = testfn /\
    skipUnlessGPU env testfn w = (Skipped "Test requires a GPU", w)) \/
   (skipUnlessGPU env testfn = testfn /\
    skipIfGPU env testfn w = (Skipped "Test is CPU-only", w))) /\
  runs (skipIfGPU env (skipUnlessGPU env testfn)) w = false /\
  runs (skipUnlessGPU env (skipIfGPU env testfn)) w = false.
Proof.
  unfold skipIfGPU, skipUnlessGPU, skipIf, skipUnless, runs, skip.
  destruct (GPU_AVAILABLE env); cbn; auto.
Qed.

(** X17: the flags are ordered: a GPU is only ever reported when [torch] is
    importable, so a test that [skipUnlessGPU] lets run is left alone by
    [skipUnlessTorch] as well.  Without [torch] both decorators skip the
    test; with [torch], [skipUnlessTorch] leaves the test alone and
    [skipUnlessGPU] does so exactly when the device count is positive.
    [skipUnlessDetectron] leaves the test alone when both
    [maskrcnn_benchmark] and [cv2] are importable, and skips it when
    either is not. *)
Theorem skip_flags_are_ordered :
  (GPU_AVAILABLE env = true ->
   TORCH_AVAILABLE env = true /\
   skipUnlessTorch env (skipUnlessGPU env testfn) = testfn) /\
  (torch env = None ->
   forall w,
     skipUnlessTorch env testfn w = (Skipped "pytorch is not installed", w) /\
     skipUnlessGPU env testfn w = (Skipped "Test requires a GPU", w)) /\
  (forall count, torch env = Some count ->
     skipUnlessTorch env testfn = testfn /\
     (0 < count -> skipUnlessGPU env testfn = testfn) /\
     (count <= 0 ->
      forall w, skipUnlessGPU env testfn w =
        (Skipped "Test requires a GPU", w))) /\
  (maskrcnn_benchmark env = true -> cv2 env = true ->
   skipUnlessDetectron env testfn = testfn) /\
  (maskrcnn_benchmark env = false \/ cv2 env = false ->
   forall w, skipUnlessDetectron env testfn w =
     (Skipped "maskrcnn_benchmark and/or opencv not installed", w)).
Proof.
  unfold skipUnlessTorch, skipUnlessGPU, skipUnlessDetectron, skipUnless,
    skip, GPU_AVAILABLE, TORCH_AVAILABLE, DETECTRON_AVAILABLE.
  split; [|split; [|split; [|split]]].
  - destruct (torch env) as [count|]; [|discriminate].
    intro H. rewrite H. split; reflexivity.
  - intros -> w. split; reflexivity.
  - intros count ->. split; [reflexivity|]. split.
    + intro H. now destruct (Z.ltb_spec 0 count) as [_|Hle]; [|lia].
    + intros H w. now destruct (Z.ltb_spec 0 count) as [Hlt|_]; [lia|].
  - intros -> ->. reflexivity.
  - intros [-> | H] w; [reflexivity|].
    rewrite H. now destruct (maskrcnn_benchmark env).
Qed.

(** X18: [skipIfCircleCI] leaves the test alone exactly when [CIRCLECI] is
    unset or empty; any other value, ["false"] and ["0"] included, makes
    it skip the test. *)
Theorem skipIfCircleCI_spec :
  (CIRCLECI env = None \/ CIRCLECI env = Some ""%string ->
   skipIfCircleCI env testfn = testfn) /\
  (forall value, CIRCLECI env = Some value -> value <> ""%string ->
   forall w, skipIfCircleCI env testfn w =
     (Skipped "Test disabled in CircleCI", w)).
Proof.
  unfold skipIfCircleCI, skipIf, skip, is_this_circleci, truthy.
  split.
  - intros [-> | ->]; reflexivity.
  - intros value -> Hv w. destruct value; [congruence | reflexivity].
Qed.

End SkipFacts.

(** * Properties of the git listings *)

Section GitFacts.
Import Git.

Lemma split_nonempty (s : string) : split s <> [].
Proof.
  destruct s as [|c s]; cbn [split]; [discriminate|].
  destruct (Ascii.eqb c newline); [discriminate|].
  destruct (split s); discriminate.
Qed.

Lemma split_length (s : string) : List.length (split s) = S (newlines s).
Proof.
  induction s as [|c s IH]; [reflexivity|]. cbn [split newlines].
  destruct (Ascii.eqb c newline); [cbn [List.length]; now rewrite IH|].
  destruct (split s); [discriminate | exact IH].
Qed.

Lemma join_split (s : string) :
  String.concat (String newline "") (split s) = s.
Proof.
  induction s as [|c s IH]; [reflexivity|]. cbn [split].
  pose proof (split_nonempty s) as Hs.
  destruct (Ascii.eqb_spec c newline) as [->|Hne];
    destruct (split s) as [|piece pieces]; try congruence.
  - change (String.concat (String newline "") ("" :: piece :: pieces))%string
      with (String newline
              (String.concat (String newline "") (piece :: pieces))).
    now rewrite IH.
  - destruct pieces as [|q qs].
    + change (String c piece = String c s). f_equal. exact IH.
    + change (String c (String.concat (String newline "") (piece :: q :: qs))
              = String c s).
      now rewrite IH.
Qed.

Lemma split_pieces (s : string) :
  Forall (fun piece => newlines piece = 0%nat) (split s).
Proof.
  induction s as [|c s IH]; [repeat constructor|]. cbn [split].
  destruct (Ascii.eqb c newline) eqn:E.
  - constructor; [reflexivity | exact IH].
  - destruct (split s) as [|piece pieces].
    + repeat constructor. cbn [newlines]. now rewrite E.
    + inversion IH; subst.
      constructor; [cbn [newlines]; now rewrite E | assumption].
Qed.

Variable ls_files : option string -> string.
Variable fork_point : string.
Variable diff_name_only : string -> string.
Variable PathManager_exists : string -> bool.

(** X19: without [skip_nonexisting] the listing has one name per line of what
    git printed, one more than there are line feeds and so never none;
    no name holds a line feed; and joined by line feeds the names give
    back what git printed. *)
Theorem git_ls_files_keeps_every_line (root : option string) :
  List.length (git_ls_files ls_files PathManager_exists root false) =
    S (newlines (ls_files root)) /\
  Forall (fun name => newlines name = 0%nat)
    (git_ls_files ls_files PathManager_exists root false) /\
  String.concat (String newline "")
    (git_ls_files ls_files PathManager_exists root false) = ls_files root.
Proof.
  unfold git_ls_files.
  split; [apply split_length|]. split; [apply split_pieces | apply join_split].
Qed.

(** X20: when git prints nothing, the listings are not empty: they hold the
    empty name, unless [skip_nonexisting] is set and [PathManager.exists]
    rejects the empty name. *)
Theorem git_listings_of_no_output (root : option string)
    (skip_nonexisting : bool) :
  (ls_files root = ""%string ->
   git_ls_files ls_files PathManager_exists root skip_nonexisting =
     if skip_nonexisting && negb (PathManager_exists "")
     then [] else [""%string]) /\
  (diff_name_only fork_point = ""%string ->
   git_changed_files fork_point diff_name_only PathManager_exists
     skip_nonexisting =
     if skip_nonexisting && negb (PathManager_exists "")
     then [] else [""%string]).
Proof.
  unfold git_ls_files, git_changed_files.
  split; intros ->; cbn [split]; destruct skip_nonexisting;
    cbn [filter andb]; try reflexivity;
    now destruct (PathManager_exists "").
Qed.

End GitFacts.

(** * The theorems at concrete inputs *)

Section Instances.
Import Py Retry Signal Timeout.

(** [retry(ntries=3)] around a test that fails twice and then returns
    ["ok"]: three calls, result ["ok"]. *)
Lemma retry_flaky_operation_witness :
  outcome_at (flaky 2) tt tt 0%nat 2 = Returned "ok"%string /\
  fst (_wrapper (fun _ : unit => AssertionError) (Build_retry 3 false)
         "test_flaky" (flaky 2) tt tt fresh) = Returned "ok"%string /\
  invocations fresh
    (snd (_wrapper (fun _ : unit => AssertionError) (Build_retry 3 false)
            "test_flaky" (flaky 2) tt tt fresh)) = 3%nat.
Proof.
  split; [reflexivity|].
  refine (proj1 (retry_flaky_operation unit unit string nat
                   (fun _ => AssertionError) (flaky 2) tt tt
                   (Build_retry 3 false) "test_flaky" 2 "ok"%string fresh
                   _ _ _) _).
  - simpl. lia.
  - intros i Hi. exists AssertionError.
    destruct i as [|[|i]]; [split; reflexivity | split; reflexivity | lia].
  - reflexivity.
  - simpl. lia.
Defined.

(** [retry(ntries=5)] around a test that always raises [ValueError]: one
    call, [ValueError]. *)
Lemma retry_other_failure_propagates_witness :
  except_matches AssertionError ValueError = false /\
  fst (_wrapper (fun _ : unit => AssertionError) (Build_retry 5 true)
         "test_broken" (always_raises ValueError) tt tt fresh)
    = Raised ValueError /\
  invocations fresh
    (snd (_wrapper (fun _ : unit => AssertionError) (Build_retry 5 true)
            "test_broken" (always_raises ValueError) tt tt fresh)) = 1%nat.
Proof.
  split; [reflexivity|].
  apply (retry_other_failure_propagates unit unit string nat
           (fun _ => AssertionError) (always_raises ValueError) tt tt
           (Build_retry 5 true) "test_broken" 0 ValueError fresh).
  - intros i Hi. lia.
  - reflexivity.
  - reflexivity.
  - simpl. lia.
Defined.


(** [timeout(5)] around one second of work, then [timeout(5)] again. *)
Lemma timeout_teardown_ignores_sigalrm_witness :
  0 <= 5 /\
  sigalrm (snd (timeout 5 (Sleep 1) boot)) = SIG_IGN /\
  (forall n, fst (sleep n (snd (timeout 5 (Sleep 1) boot))) = Completed).
Proof.
  split; [lia|].
  destruct (timeout_teardown_ignores_sigalrm 5 (Sleep 1) boot ltac:(lia))
    as (_ & _ & H1 & H2 & _).
  split; [exact H1 | exact H2].
Defined.

(** [timeout(5)] around one second of work, entered under [SIG_DFL]. *)
Lemma timeout_leaves_sigalrm_ignored_witness :
  unguarded (Sleep 1) = (Completed, 1%nat) /\
  timeout 5 (Sleep 1) boot = (Completed, Process SIG_IGN (Some 4%nat) 1).
Proof.
  split; [reflexivity|].
  apply (timeout_leaves_sigalrm_ignored 5 (Sleep 1) boot Completed 1).
  - lia.
  - reflexivity.
  - right. simpl. lia.
Defined.

(** [timeout(30)] around a block that works two seconds and then raises
    [ValueError]. *)
Lemma timeout_propagates_other_failures_witness :
  unguarded (Seq (Sleep 2) (Raise ValueError)) = (Failed ValueError, 2%nat) /\
  fst (timeout default_time (Seq (Sleep 2) (Raise ValueError)) boot)
    = Failed ValueError.
Proof.
  split; [reflexivity|].
  apply (timeout_propagates_other_failures default_time
           (Seq (Sleep 2) (Raise ValueError)) boot ValueError 2).
  - unfold default_time. lia.
  - reflexivity.
  - right. unfold default_time. simpl. lia.
Defined.

(** [timeout(1)] around [time.sleep(5)]: [TimeoutError] after one second. *)
Lemma timeout_raises_TimeoutError_witness :
  unguarded (Sleep 5) = (Completed, 5%nat) /\
  timeout 1 (Sleep 5) boot = (Failed TimeoutError, Process SIG_IGN None 1).
Proof.
  split; [reflexivity|].
  apply (proj1 (timeout_raises_TimeoutError 1 (Sleep 5) boot) Completed 5%nat).
  - lia.
  - reflexivity.
  - reflexivity.
  - simpl. lia.
Defined.

(** [timeout(-1)] and [timeout(0)]. *)
Lemma timeout_requires_nonnegative_time_witness :
  timeout (-1) (Sleep 5) boot = (Failed AssertionError, boot) /\
  timeout_enter 0 boot = (Completed, Process _handler None 0).
Proof.
  split.
  - apply (proj1 (timeout_requires_nonnegative_time (-1) (Sleep 5) boot)).
    lia.
  - apply (proj2 (timeout_requires_nonnegative_time 0 (Sleep 5) boot)).
    lia.
Defined.

End Instances.

(** * The further properties at concrete inputs *)

Section MoreInstances.
Import Py.

(** [retry(ntries=3)] around a test that always fails its assertion. *)
Lemma retry_always_failing_test_witness :
  Z.of_nat
    (Retry.invocations Retry.fresh
       (snd (Retry._wrapper (fun _ : unit => AssertionError)
               (Retry.Build_retry 3 false) "test_broken"
               (Retry.always_raises AssertionError) tt tt Retry.fresh))) = 3.
Proof.
  refine (proj2 (retry_always_failing_test unit unit string nat
                   (fun _ => AssertionError)
                   (Retry.always_raises AssertionError) tt tt
                   (Retry.Build_retry 3 false) "test_broken" Retry.fresh _)).
  intro h. exists AssertionError. split; reflexivity.
Defined.

(** [retry(ntries=3)] on top of [retry(ntries=2)]: six calls. *)
Lemma retry_stacked_multiplies_witness :
  Z.of_nat
    (Retry.invocations Retry.fresh
       (Retry.heap
          (snd (Retry._wrapper (fun _ : unit => AssertionError)
                  (Retry.Build_retry 3 false) "test_broken"
                  (Retry.decorated (fun _ : unit => AssertionError)
                     (Retry.Build_retry 2 false) "test_broken"
                     (Retry.always_raises AssertionError))
                  tt tt (Retry.Machine Retry.fresh [] []))))) = 6.
Proof.
  refine (retry_stacked_multiplies unit unit string nat
            (fun _ => AssertionError) (Retry.always_raises AssertionError)
            tt tt (Retry.Build_retry 2 false) (Retry.Build_retry 3 false)
            "test_broken" _ (Retry.Machine Retry.fresh [] [])).
  intro h. exists AssertionError. split; reflexivity.
Defined.

(** [timeout(3)] around ten seconds of work in two steps. *)
Lemma timeout_bounds_the_duration_witness :
  fst (Timeout.timeout 3 (Signal.Seq (Signal.Sleep 2) (Signal.Sleep 8))
         Signal.boot) = Signal.Failed TimeoutError /\
  Signal.clock
    (snd (Timeout.timeout 3 (Signal.Seq (Signal.Sleep 2) (Signal.Sleep 8))
            Signal.boot)) = 3%nat.
Proof.
  refine (timeout_bounds_the_duration 3
            (Signal.Seq (Signal.Sleep 2) (Signal.Sleep 8)) Signal.boot
            Signal.Completed 10 _ _ _).
  - lia.
  - reflexivity.
  - reflexivity.
Defined.

(** [timeout(1)] around [try: sleep(5)] with [except Exception: sleep(60)]. *)
Lemma timeout_caught_by_the_block_witness :
  Timeout.timeout 1
    (Signal.Try (Signal.Sleep 5) Exception (Signal.Sleep 60)) Signal.boot =
    (Signal.Completed, Signal.Process Signal.SIG_IGN None 61).
Proof.
  refine (timeout_caught_by_the_block 1 (Signal.Sleep 5) Exception
            (Signal.Sleep 60) Signal.boot Signal.Completed 5 _ _ _ _ _).
  - lia.
  - reflexivity.
  - reflexivity.
  - simpl. lia.
  - reflexivity.
Defined.

(** [timeout(5)] around one second of work, then a handler that raises
    [KeyboardInterrupt], then ten seconds of work. *)
Lemma timeout_leftover_alarm_is_delivered_witness :
  Guards.run
    (Guards.Then (Guards.Guarded 5 (Guards.Plain (Signal.Sleep 1)))
       (Guards.Then
          (Guards.Install (Signal.Callable (Some KeyboardInterrupt)))
          (Guards.Plain (Signal.Sleep 10)))) Signal.boot =
    (Signal.Failed KeyboardInterrupt,
     Signal.Process (Signal.Callable (Some KeyboardInterrupt)) None 5).
Proof.
  refine (timeout_leftover_alarm_is_delivered 5 (Signal.Sleep 1)
            KeyboardInterrupt 10 1 Signal.boot _ _ _ _).
  - lia.
  - reflexivity.
  - simpl. lia.
  - simpl. lia.
Defined.

(** [timeout(2)] around [timeout(30)] around one second of work, followed
    by a hundred seconds of work. *)
Lemma timeout_nested_loses_outer_deadline_witness :
  fst (Guards.run
         (Guards.Guarded 2
            (Guards.Then (Guards.Guarded 30 (Guards.Plain (Signal.Sleep 1)))
               (Guards.Plain (Signal.Sleep 100)))) Signal.boot) =
    Signal.Completed /\
  Signal.clock
    (snd (Guards.run
            (Guards.Guarded 2
               (Guards.Then
                  (Guards.Guarded 30 (Guards.Plain (Signal.Sleep 1)))
                  (Guards.Plain (Signal.Sleep 100)))) Signal.boot)) = 101%nat.
Proof.
  destruct (timeout_nested_loses_outer_deadline 2 30 (Signal.Sleep 1)
              (Signal.Sleep 100) 1 Signal.boot) as (H1 & _ & H2).
  - lia.
  - lia.
  - reflexivity.
  - right. simpl. lia.
  - split; [exact H1 | exact H2].
Defined.

Lemma closed_root_tmp : TempDir.closed [[]; ["tmp"%string]].
Proof.
  intros d p [<- | [<- | []]] H.
  - destruct d; [now left | discriminate].
  - destruct d as [|x [|y d]]; [now left | | ].
    + cbn in H. destruct (string_dec x "tmp"); [subst; right; now left|].
      discriminate.
    + cbn in H. destruct (string_dec x "tmp"); discriminate.
Defined.

(** A block that writes [model] into the temporary directory; the name
    [/tmp] is taken, [/tmp/a] is not. *)
Lemma tempdir_restores_the_filesystem_witness :
  TempDir.tempdir [["tmp"]; ["tmp"; "a"]]%string
    (fun d fs => (Returned tt, [d ++ ["model"%string]] ++ fs))
    [[]; ["tmp"%string]] =
    (TempDir.Done, [[]; ["tmp"%string]]).
Proof.
  refine (tempdir_restores_the_filesystem _ _ _
            [["tmp"; "a"]; []; ["tmp"]]%string ["tmp"; "a"]%string
            [["tmp"; "a"; "model"]]%string tt closed_root_tmp _ _ _).
  - reflexivity.
  - reflexivity.
  - repeat constructor.
Defined.

(** The same block, raising after it has written [model]. *)
Lemma tempdir_keeps_the_directory_on_failure_witness :
  TempDir.tempdir [["tmp"]; ["tmp"; "a"]]%string
    (fun d fs => (Raised RuntimeError, [d ++ ["model"%string]] ++ fs))
    [[]; ["tmp"%string]] =
    (TempDir.BodyRaised RuntimeError,
     [["tmp"; "a"; "model"]; ["tmp"; "a"]; []; ["tmp"]]%string).
Proof.
  refine (proj1 (tempdir_keeps_the_directory_on_failure _ _ _
                   [["tmp"; "a"]; []; ["tmp"]]%string ["tmp"; "a"]%string
                   [["tmp"; "a"; "model"]]%string RuntimeError _ _)).
  - reflexivity.
  - reflexivity.
Defined.

(** A block that removes the temporary directory itself. *)
Lemma tempdir_fails_when_directory_is_gone_witness :
  TempDir.tempdir [["tmp"; "a"]]%string
    (fun d fs => (Returned tt, List.tl fs)) [[]; ["tmp"%string]] =
    (TempDir.CleanupFailed, [[]; ["tmp"%string]]).
Proof.
  refine (tempdir_fails_when_directory_is_gone _ _ _
            [["tmp"; "a"]; []; ["tmp"]]%string _ ["tmp"; "a"]%string tt
            _ _ _).
  - reflexivity.
  - reflexivity.
  - reflexivity.
Defined.

Lemma terminal_well_formed : Capture.well_formed Capture.terminal.
Proof. unfold Capture.well_formed, Capture.terminal. cbn. repeat split; auto. Defined.

(** A block that prints, warns on standard error, prints again and
    fails. *)
Lemma capture_output_gathers_and_restores_witness :
  let '(sio, r, w') :=
    Capture.capture_output
      (fun _ => Capture.run
                  [Capture.Out "hello "; Capture.Err "warning ";
                   Capture.Out "world"; Capture.Fail ValueError;
                   Capture.Out "unreached"]%string)
      Capture.terminal in
  r = Raised ValueError /\
  Capture.getvalue sio w' = "hello warning world"%string /\
  Capture.sys_stdout w' = 0%nat /\ Capture.sys_stderr w' = 1%nat.
Proof.
  pose proof (capture_output_gathers_and_restores
                [Capture.Out "hello "; Capture.Err "warning ";
                 Capture.Out "world"; Capture.Fail ValueError;
                 Capture.Out "unreached"]%string
                Capture.terminal terminal_well_formed) as H.
  destruct (Capture.capture_output _ Capture.terminal) as [[sio r] w'].
  destruct H as (H1 & H2 & _ & H4 & H5).
  repeat split; assumption.
Defined.

(** Two captures in a row. *)
Lemma capture_output_buffers_are_separate_witness :
  let '(sio1, _, w1) :=
    Capture.capture_output
      (fun _ => Capture.run [Capture.Out "train"; Capture.Err "!"]%string)
      Capture.terminal in
  let '(sio2, _, w2) :=
    Capture.capture_output
      (fun _ => Capture.run [Capture.Out "valid"]%string) w1 in
  Capture.getvalue sio1 w2 = "train!"%string /\
  Capture.getvalue sio2 w2 = "valid"%string.
Proof.
  pose proof (capture_output_buffers_are_separate
                [Capture.Out "train"; Capture.Err "!"]%string
                [Capture.Out "valid"]%string
                Capture.terminal terminal_well_formed) as H.
  destruct (Capture.capture_output _ Capture.terminal) as [[sio1 r1] w1].
  destruct (Capture.capture_output _ w1) as [[sio2 r2] w2].
  destruct H as (_ & H2 & H3 & _).
  split; assumption.
Defined.

(** A task's [README.md], and an agents file. *)
Lemma is_new_task_filename_exclusions_witness :
  Tasks.is_new_task_filename "parlai/tasks/squad/README.md" = false /\
  (12 <= String.length "parlai/tasks/squad/agents.py")%nat.
Proof.
  split.
  - exact (proj1 (is_new_task_filename_exclusions
                    "parlai/tasks/squad/" ".md")).
  - apply (proj2 (proj2 (is_new_task_filename_exclusions
                           "parlai/tasks/squad/agents.py" ""))).
    reflexivity.
Defined.

(** A machine with [torch] and two GPUs, and [CIRCLECI=false]. *)
Lemma skip_flags_are_ordered_witness :
  Skips.skipUnlessTorch
    (Skips.Environment (Some 2) true true false false true (Some "false"%string))
    (Skips.skipUnlessGPU
       (Skips.Environment (Some 2) true true false false true
          (Some "false"%string))
       (fun w : nat => (Skips.Ran (Returned tt), S w))) =
    (fun w : nat => (Skips.Ran (Returned tt), S w)).
Proof.
  apply (proj1 (skip_flags_are_ordered nat unit
                  (Skips.Environment (Some 2) true true false false true
                     (Some "false"%string))
                  (fun w : nat => (Skips.Ran (Returned tt), S w)))).
  reflexivity.
Defined.

Lemma skipIfCircleCI_spec_witness :
  Skips.skipIfCircleCI
    (Skips.Environment (Some 2) true true false false true (Some "false"%string))
    (fun w : nat => (Skips.Ran (Returned tt), S w)) 7%nat =
    (Skips.Skipped "Test disabled in CircleCI", 7%nat).
Proof.
  apply (proj2 (skipIfCircleCI_spec nat unit
                  (Skips.Environment (Some 2) true true false false true
                     (Some "false"%string))
                  (fun w : nat => (Skips.Ran (Returned tt), S w)))
           "false"%string).
  - reflexivity.
  - discriminate.
Defined.

(** A repository in which git lists nothing. *)
Lemma git_listings_of_no_output_witness :
  Git.git_ls_files (fun _ => ""%string) (fun _ => true) None true =
    [""%string] /\
  Git.git_ls_files (fun _ => ""%string) (fun _ => false) None true = [].
Proof.
  split.
  - apply (proj1 (git_listings_of_no_output (fun _ => ""%string) ""%string
                    (fun _ => ""%string) (fun _ => true) None true)).
    reflexivity.
  - apply (proj1 (git_listings_of_no_output (fun _ => ""%string) ""%string
                    (fun _ => ""%string) (fun _ => false) None true)).
    reflexivity.
Defined.

(** [retry(ntries=3)] around a test of a [TestCase] that fails twice and
    then returns: the third call is the last, and its result is the
    wrapper's. *)
Lemma retry_failure_is_the_tests_own_witness :
  exists n : nat,
    fst (RetryCall._wrapper (fun _ : unit => Some AssertionError)
           (Retry.Build_retry 3 false) "test_flaky" (Retry.flaky 2)
           (Some tt) tt Retry.fresh) =
      RetryCall.FromTest (Retry.outcome_at (Retry.flaky 2) tt tt 0%nat n) /\
    Z.of_nat (S n) <= 3 /\
    Retry.invocations Retry.fresh
      (snd (RetryCall._wrapper (fun _ : unit => Some AssertionError)
              (Retry.Build_retry 3 false) "test_flaky" (Retry.flaky 2)
              (Some tt) tt Retry.fresh)) = S n.
Proof.
  destruct (proj1 (retry_failure_is_the_tests_own unit unit string nat
                     (fun _ => Some AssertionError) (Retry.flaky 2) tt
                     (Retry.Build_retry 3 false) "test_flaky" tt
                     AssertionError Retry.fresh eq_refl))
    as (n & H1 & H2 & _ & _ & _ & _ & _ & H3).
  exists n. split; [exact H1|]. split; [exact H2 | exact H3].
Defined.

(** [retry(ntries=3)] called on an object without [failureException],
    around a test that would pass on its second call. *)
Lemma retry_without_a_test_case_witness :
  fst (RetryCall._wrapper (fun _ : unit => None)
         (Retry.Build_retry 3 false) "test_flaky" (Retry.flaky 1)
         (Some tt) tt Retry.fresh) =
    RetryCall.FromWrapper RetryCall.AttributeError_failureException /\
  Retry.invocations Retry.fresh
    (snd (RetryCall._wrapper (fun _ : unit => None)
            (Retry.Build_retry 3 false) "test_flaky" (Retry.flaky 1)
            (Some tt) tt Retry.fresh)) = 1%nat.
Proof.
  apply (proj2 (retry_without_a_test_case unit unit string nat
                  (fun _ => None) (Retry.flaky 1) tt
                  (Retry.Build_retry 3 false) "test_flaky" Retry.fresh)
           tt AssertionError).
  - reflexivity.
  - simpl. lia.
  - reflexivity.
Defined.

End MoreInstances.
